(** * pdf-processor: the table and text pipeline of [processor.py]

    A shallow embedding of the heuristic functions of [processor.py]
    ([_make_unique_columns], [_count_non_empty_cells],
    [_get_non_empty_indices], [_find_table_structure], [_clean_table],
    the per-table and merge steps of [tables_to_dataframe], and
    [_format_text]) together with the properties stated about them.

    Conventions.
    - A Python [str] is a [string] whose characters are code points below
      256; [None] is [None] of an [option].
    - Python exceptions are the [Raise] results of the [result] monad.
    - The thresholds [n * 0.5], [n * 0.15] and [n * 0.2] are compared with
      integers only.  [n * 0.5] is exact in binary floating point.  For
      the other two the double product is the exact rational value
      whenever that value is an integer, and is at least 1/20 away from
      every integer otherwise (for row counts below 2^49), so
      [u >= n * 0.15] is [3 * n <= 20 * u], [u >= n * 0.2] is
      [n <= 5 * u] and [int(n * 0.2)] is [n / 5]. *)

From Stdlib Require Import Strings.Ascii Strings.String Numbers.DecimalString ZArith.
From Stdlib Require Import Sorting.Sorted Numbers.DecimalNat.
From stdpp Require Import base list strings gmap.

Open Scope string_scope.
Open Scope list_scope.
Open Scope nat_scope.

(** ** Python values and exceptions *)

Inductive exn : Set := IndexError | ValueError | InvalidIndexError.

Inductive result (A : Type) : Type :=
  | Ok (a : A)
  | Raise (e : exn).
Arguments Ok {A} a.
Arguments Raise {A} e.

#[global] Instance result_ret : MRet result := fun A a => Ok a.
#[global] Instance result_bind : MBind result := fun A B f m =>
  match m with
  | Ok a => f a
  | Raise e => Raise e
  end.

Module Py.

(** [str.isspace] on the code points below 256. *)
Definition isspace (a : ascii) : bool :=
  let n := nat_of_ascii a in
  ((9 <=? n) && (n <=? 13)) || ((28 <=? n) && (n <=? 32))
  || (n =? 133) || (n =? 160).

Fixpoint lstrip (s : string) : string :=
  match s with
  | EmptyString => EmptyString
  | String c s' => if isspace c then lstrip s' else s
  end.

Fixpoint rstrip (s : string) : string :=
  match s with
  | EmptyString => EmptyString
  | String c s' =>
      match rstrip s' with
      | EmptyString => if isspace c then EmptyString else String c EmptyString
      | r => String c r
      end
  end.

(** [s.strip()] *)
Definition strip (s : string) : string := rstrip (lstrip s).

(** Truth value of a [str]. *)
Definition truthy (s : string) : bool :=
  match s with
  | EmptyString => false
  | String _ _ => true
  end.

(** [str(n)] for an [int]. *)
Definition str_of_nat (n : nat) : string := NilZero.string_of_uint (Nat.to_uint n).
Definition str_of_int (z : Z) : string := NilZero.string_of_int (Z.to_int z).

(** [enumerate(l)] *)
Definition enumerate {A} (l : list A) : list (nat * A) := imap pair l.

End Py.

(** ** The data model *)

Abbreviation cell := (option string).
Abbreviation row := (list cell).
Abbreviation grid := (list row).

(** [cell is not None and str(cell).strip()] *)
Definition cell_non_empty (c : cell) : bool :=
  match c with
  | None => false
  | Some s => Py.truthy (Py.strip s)
  end.

(** ** [_make_unique_columns] *)

(** [str(col).strip() if col is not None else ''] *)
Definition column_name (col : cell) : string :=
  match col with
  | Some s => Py.strip s
  | None => ""
  end.

(** One iteration of the loop over [columns]; the state is [(seen, result)]. *)
Definition unique_step (st : gmap string nat * list string) (col : cell)
  : gmap string nat * list string :=
  let col := column_name col in
  match st.1 !! col with
  | Some n => (<[col := S n]> st.1, st.2 ++ [col +:+ "_" +:+ Py.str_of_nat (S n)])
  | None => (<[col := 0]> st.1, st.2 ++ [col])
  end.

Definition _make_unique_columns (columns : list cell) : list string :=
  (foldl unique_step (∅, []) columns).2.

(** The naming rule in the words of the specification: the name at
    position [i] keeps its bare form when it has not occurred before, and
    gets the suffix [_k] when it has occurred [k] times before. *)
Definition occurrences_before (names : list string) (i : nat) (x : string) : nat :=
  length (filter (x =.) (take i names)).

Definition suffixed_name (names : list string) (i : nat) (x : string) : string :=
  match occurrences_before names i x with
  | 0 => x
  | S k => x +:+ "_" +:+ Py.str_of_nat (S k)
  end.

(** ** Row profiles: [_count_non_empty_cells] and [_get_non_empty_indices] *)

Definition _count_non_empty_cells (r : row) : nat :=
  foldl (fun count c => if cell_non_empty c then S count else count) 0 r.

Definition _get_non_empty_indices (r : row) : list nat :=
  foldl (fun indices ic => if cell_non_empty ic.2 then indices ++ [ic.1] else indices)
        [] (Py.enumerate r).

Record profile : Set := Profile {
  index : nat;
  non_empty : nat;
  indices : list nat;
  total_cols : nat
}.

Definition row_profile (i : nat) (r : row) : profile :=
  {| index := i;
     non_empty := _count_non_empty_cells r;
     indices := _get_non_empty_indices r;
     total_cols := length r |}.

(** ** Python helpers used by the structure detector *)

Module Counter.

(** A [collections.Counter] over [int]s, in insertion order. *)
Definition t := list (nat * nat).

Fixpoint add (x : nat) (c : t) : t :=
  match c with
  | [] => [(x, 1)]
  | (k, n) :: c' => if decide (k = x) then (k, S n) :: c' else (k, n) :: add x c'
  end.

Definition of_list (l : list nat) : t := foldl (fun c x => add x c) [] l.

Definition keys (c : t) : list nat := c.*1.

(** [c[x]]; a [Counter] answers 0 for a missing key. *)
Fixpoint get (c : t) (x : nat) : nat :=
  match c with
  | [] => 0
  | (k, n) :: c' => if decide (k = x) then n else get c' x
  end.

End Counter.

(** Comparison of the pairs of [int]s that serve as sort keys. *)
Definition pair_lt (a b : nat * nat) : bool :=
  (a.1 <? b.1) || ((a.1 =? b.1) && (a.2 <? b.2)).

Definition pair_le (a b : nat * nat) : bool :=
  (a.1 <? b.1) || ((a.1 =? b.1) && (a.2 <=? b.2)).

(** [max(x :: l, key=key)]: the first element whose key is maximal. *)
Definition max_by_key {A} (key : A → nat * nat) (x : A) (l : list A) : A :=
  foldl (fun best y => if pair_lt (key best) (key y) then y else best) x l.

(** [max(l)] of a list of [int]s; [ValueError] on the empty list. *)
Definition py_max (l : list nat) : result nat :=
  match l with
  | [] => Raise ValueError
  | x :: l' => Ok (foldl Nat.max x l')
  end.

(** A stable sort; [le x y] says that [x] may stand before [y]. *)
Fixpoint insert_by {A} (le : A → A → bool) (x : A) (l : list A) : list A :=
  match l with
  | [] => [x]
  | y :: l' => if le x y then x :: l else y :: insert_by le x l'
  end.

Definition sort_by {A} (le : A → A → bool) (l : list A) : list A :=
  foldr (insert_by le) [] l.

(** [sorted(set(l))] *)
Definition sorted_set (l : list nat) : list nat :=
  sort_by Nat.leb (remove_dups l).

(** [l.sort(reverse=True)] on pairs. *)
Definition sort_pairs_reverse (l : list (nat * nat)) : list (nat * nat) :=
  sort_by (fun a b => pair_le b a) l.

Fixpoint foldlM {A B} (f : A → B → result A) (a : A) (l : list B) : result A :=
  match l with
  | [] => Ok a
  | x :: l' => a' ← f a x; foldlM f a' l'
  end.

(** [l[i] += 1]; [IndexError] when [i] is out of range. *)
Definition incr_at (i : nat) (l : list nat) : result (list nat) :=
  match l !! i with
  | Some n => Ok (<[i := S n]> l)
  | None => Raise IndexError
  end.

(** The column-counting loop shared by the detector and the cleaner:
    [counts = [0] * width], then [counts[col_idx] += 1] for every
    non-empty cell of every row. *)
Definition count_row (counts : list nat) (r : row) : result (list nat) :=
  foldlM (fun counts ic => if cell_non_empty ic.2 then incr_at ic.1 counts else Ok counts)
         counts (Py.enumerate r).

Definition count_columns (width : nat) (rows : list row) : result (list nat) :=
  foldlM count_row (replicate width 0) rows.

(** ** [_find_table_structure] *)

(** [non_empty >= max(2, target * 0.5)] *)
Definition meets_half (target non_empty : nat) : bool :=
  (2 <=? non_empty) && (target <=? 2 * non_empty).

(** [usage >= max(1, n * 0.15)] *)
Definition meets_15 (n usage : nat) : bool :=
  (1 <=? usage) && (3 * n <=? 20 * usage).

(** [count >= max(1, n * 0.2)] *)
Definition meets_20 (n count : nat) : bool :=
  (1 <=? count) && (n <=? 5 * count).

Definition target_col_count (non_empty_counts : list nat) : nat :=
  let count_freq := Counter.of_list non_empty_counts in
  match Counter.keys count_freq with
  | [] => 3
  | k :: ks => max_by_key (fun x => (Counter.get count_freq x, x)) k ks
  end.

Definition row_profiles (table : grid) : list profile :=
  (fun ir => row_profile ir.1 ir.2) <$> Py.enumerate table.

Definition dense_counts (profiles : list profile) : list nat :=
  filter (fun n => 2 ≤ n) (non_empty <$> profiles).

Definition find_header (target : nat) (profiles : list profile) : nat :=
  match List.find (fun p => meets_half target (non_empty p)) profiles with
  | Some p => index p
  | None => 0
  end.

(** The header loop that adds named columns; [with_usage] is [Some col_usage]
    in the first loop, which asks for data below the header, and [None] in
    the loop of the under-retention guard, which does not. *)
Definition add_header_columns (with_usage : option (list nat)) (header_row : row)
    (cols_to_keep : list nat) : list nat :=
  foldl (fun cols ic =>
           if cell_non_empty ic.2 && negb (bool_decide (ic.1 ∈ cols)) then
             match with_usage with
             | Some col_usage =>
                 match col_usage !! ic.1 with
                 | Some u => if 0 <? u then cols ++ [ic.1] else cols
                 | None => cols
                 end
             | None => cols ++ [ic.1]
             end
           else cols)
        cols_to_keep (Py.enumerate header_row).

Definition top_columns (max_cols : nat) (col_usage : list nat) : list nat :=
  let col_usage_with_idx := (fun iu => (iu.2, iu.1)) <$> Py.enumerate col_usage in
  (take (Nat.max 3 (max_cols / 2)) (sort_pairs_reverse col_usage_with_idx)).*2.

(** The choice of the columns, once the usage of every column below the
    header is known. *)
Definition detect_columns (num_data_rows max_cols : nat) (col_usage : list nat)
    (header_row : row) : list nat :=
  let cols_to_keep :=
    (filter (fun iu => meets_15 num_data_rows iu.2) (Py.enumerate col_usage)).*1 in
  let cols_to_keep := add_header_columns (Some col_usage) header_row cols_to_keep in
  let cols_to_keep :=
    if (length cols_to_keep <? 3) && (3 <? max_cols)
    then add_header_columns None header_row (top_columns max_cols col_usage)
    else cols_to_keep in
  sorted_set cols_to_keep.

Definition _find_table_structure (table : grid) : result (nat * option (list nat)) :=
  if length table <? 2 then Ok (0, None) else
  let profiles := row_profiles table in
  let non_empty_counts := dense_counts profiles in
  match non_empty_counts with
  | [] => Ok (0, None)
  | _ :: _ =>
    let target := target_col_count non_empty_counts in
    let header_idx := find_header target profiles in
    let data_rows :=
      if S header_idx <? length table then drop (S header_idx) table else [] in
    match data_rows with
    | [] => Ok (header_idx, None)
    | _ :: _ =>
      max_cols ← py_max (length <$> table);
      col_usage ← count_columns max_cols data_rows;
      let header_row := default [] (table !! header_idx) in
      Ok (header_idx,
          Some (detect_columns (length data_rows) max_cols col_usage header_row))
    end
  end.

(** ** [_clean_table] *)

(** The secondary heuristics of the cleaner (the body of
    [if cols_to_keep is None or not cols_to_keep], below the [max_cols == 0]
    test). *)
Definition fallback_columns (max_cols : nat) (cleaned_table : grid) : result (list nat) :=
  let num_rows := length cleaned_table in
  col_counts ← count_columns max_cols cleaned_table;
  let cols_to_keep :=
    (filter (fun ic => meets_20 num_rows ic.2) (Py.enumerate col_counts)).*1 in
  match cols_to_keep with
  | _ :: _ => Ok cols_to_keep
  | [] =>
    let cols_to_keep := (filter (fun ic => 0 <? ic.2) (Py.enumerate col_counts)).*1 in
    if 20 <? length cols_to_keep then
      cols_with_counts ← mapM (fun i => match col_counts !! i with
                                        | Some n => Ok (n, i)
                                        | None => Raise IndexError
                                        end) cols_to_keep;
      Ok (take 20 (sort_pairs_reverse cols_with_counts)).*2
    else Ok cols_to_keep
  end.

(** [row[col_idx] if col_idx < len(row) else None], for each kept column. *)
Definition project_row (cols_to_keep : list nat) (r : row) : row :=
  (fun col_idx => default None (r !! col_idx)) <$> cols_to_keep.

(** The end of the cleaner: [if not cols_to_keep: return cleaned_table],
    then the projection of every row. *)
Definition keep_columns (cols_to_keep : list nat) (cleaned_table : grid) : grid :=
  match cols_to_keep with
  | [] => cleaned_table
  | _ :: _ => project_row cols_to_keep <$> cleaned_table
  end.

Definition _clean_table (table : grid) : result grid :=
  match table with
  | [] => Ok table
  | _ :: _ =>
    '(header_idx, cols_to_keep) ← _find_table_structure table;
    let cleaned_table := drop header_idx table in
    match cleaned_table with
    | [] => Ok table
    | _ :: _ =>
      match cols_to_keep with
      | Some (c :: cs) => Ok (keep_columns (c :: cs) cleaned_table)
      | _ =>
        max_cols ← py_max (length <$> cleaned_table);
        if max_cols =? 0 then Ok cleaned_table else
        cols_to_keep ← fallback_columns max_cols cleaned_table;
        Ok (keep_columns cols_to_keep cleaned_table)
      end
    end
  end.

(** ** Datasets and the merger of [tables_to_dataframe]

    A [pandas.DataFrame] of text cells: the column labels and the rows,
    each row as wide as the labels.  [None] is a missing value
    ([None] or [NaN]). *)

Record DataFrame : Set := Frame {
  columns : list string;
  data : list row
}.

Module pd.

(** The values of the column at position [j]. *)
Definition column_values (df : DataFrame) (j : nat) : list cell :=
  (fun r => default None (r !! j)) <$> data df.

(** The number of non-missing values of the column at position [j]. *)
Definition non_null_count (df : DataFrame) (j : nat) : nat :=
  length (filter (fun c => is_Some c) (column_values df j)).

(** Keep the columns at the positions [js]. *)
Definition select_columns (js : list nat) (df : DataFrame) : DataFrame :=
  {| columns := omap (fun j => columns df !! j) js;
     data := (fun r => (fun j => default None (r !! j)) <$> js) <$> data df |}.

(** [pd.DataFrame(rows, columns=columns)] for a non-empty list of rows:
    short rows are padded with missing values, and a width that differs
    from the number of labels is a [ValueError]. *)
Definition DataFrame_of_rows (rows : list row) (columns : list string) : result DataFrame :=
  let width := max_list (length <$> rows) in
  if width =? length columns
  then Ok {| columns := columns;
             data := (fun r => r ++ replicate (width - length r) None) <$> rows |}
  else Raise ValueError.

(** [df.dropna(how='all')] *)
Definition dropna_rows_all (df : DataFrame) : DataFrame :=
  {| columns := columns df;
     data := filter (fun r => Exists (fun c => is_Some c) r) (data df) |}.

(** [df.dropna(axis=1, thresh=thresh)]: keep the columns with at least
    [thresh] non-missing values. *)
Definition dropna_columns_thresh (thresh : nat) (df : DataFrame) : DataFrame :=
  select_columns
    (filter (fun j => thresh ≤ non_null_count df j) (seq 0 (length (columns df)))) df.

(** [df.dropna(axis=1, how='all')]: drop the columns with no value at all. *)
Definition dropna_columns_all (df : DataFrame) : DataFrame :=
  select_columns
    (filter (fun j => Exists (fun c => is_Some c) (column_values df j))
            (seq 0 (length (columns df)))) df.

(** [df.empty] *)
Definition empty (df : DataFrame) : bool :=
  match columns df, data df with
  | _ :: _, _ :: _ => false
  | _, _ => true
  end.

(** The labels of [pd.concat(frames, axis=0, join='outer')]: every label
    of every frame, each appended when it is first met. *)
Definition add_label (seen : list string) (c : string) : list string :=
  if bool_decide (c ∈ seen) then seen else seen ++ [c].

Definition union_columns (frames : list DataFrame) : list string :=
  foldl (fun seen df => foldl add_label seen (columns df)) [] frames.

(** A row of a frame labelled [src], aligned to the labels [dst]. *)
Definition reindex_row (src dst : list string) (r : row) : row :=
  (fun c => match list_find (c =.) src with
            | Some (j, _) => default None (r !! j)
            | None => None
            end) <$> dst.

(** The outer join of frames whose labels are duplicate-free: the labels
    of [union_columns], every row aligned to them. *)
Definition align (frames : list DataFrame) : DataFrame :=
  let merged := union_columns frames in
  {| columns := merged;
     data := mjoin ((fun df => reindex_row (columns df) merged <$> data df) <$> frames) |}.

(** The rows of frames that all carry the same labels, stacked under
    these labels as they stand. *)
Definition stack (labels : list string) (frames : list DataFrame) : DataFrame :=
  {| columns := labels; data := mjoin (data <$> frames) |}.

(** [pd.concat(frames, ignore_index=True, axis=0, join='outer')].
    Without a frame pandas raises [ValueError].  Frames whose labels are
    duplicate-free are aligned to the union of their labels.  When a
    frame repeats a label, the result keeps the labels of the first
    frame if every frame carries exactly these labels; otherwise the
    frames have to be reindexed to the union, which pandas refuses for
    a frame with a repeated label ([InvalidIndexError]). *)
Definition concat (frames : list DataFrame) : result DataFrame :=
  match frames with
  | [] => Raise ValueError
  | first :: rest =>
      if bool_decide (Forall (fun df => NoDup (columns df)) frames) then
        Ok (align frames)
      else if bool_decide (Forall (fun df => columns df = columns first) rest) then
        Ok (stack (columns first) frames)
      else Raise InvalidIndexError
  end.

End pd.

(** [c and str(c).strip()]: a column name that is not blank. *)
Definition non_blank_name (c : string) : bool := Py.truthy c && Py.truthy (Py.strip c).

(** The body of the [try] for one table, from the cleaned table on:
    [Ok (Some df)] when [df] is appended to [all_tables], [Ok None] when
    nothing is appended. *)
Definition dataset_of_cleaned (cleaned : grid) : result (option DataFrame) :=
  match cleaned with
  | header :: ((_ :: _) as body) =>
      let names := _make_unique_columns header in
      df ← pd.DataFrame_of_rows body names;
      let df := pd.dropna_rows_all df in
      let df := pd.dropna_columns_all df in
      if negb (pd.empty df) && (0 <? length (columns df))
      then Ok (Some df) else Ok None
  | [header] =>
      let names := _make_unique_columns header in
      let names := filter (fun c => non_blank_name c) names in
      if 0 <? length names
      then Ok (Some {| columns := names; data := [] |}) else Ok None
  | [] => Ok None
  end.

(** The [except] branch: the original table, header and body as they are. *)
Definition dataset_of_original (table : grid) : result (option DataFrame) :=
  match table with
  | header :: ((_ :: _) as body) =>
      let names := _make_unique_columns header in
      df ← pd.DataFrame_of_rows body names;
      let df := pd.dropna_rows_all df in
      let df := pd.dropna_columns_all df in
      if negb (pd.empty df) then Ok (Some df) else Ok None
  | _ => Ok None
  end.

(** What one extracted table contributes to [all_tables]. *)
Definition table_contribution (table : grid) : option DataFrame :=
  match table with
  | [] => None
  | _ :: _ =>
    let attempt :=
      cleaned ← _clean_table table;
      let cleaned := match cleaned with [] => table | _ :: _ => cleaned end in
      dataset_of_cleaned cleaned in
    match attempt with
    | Ok contribution => contribution
    | Raise _ =>
        match dataset_of_original table with
        | Ok contribution => contribution
        | Raise _ => None
        end
    end
  end.

(** The cross-table merge and the fill-rate cut that follows it:
    [thresh = max(1, int(len(merged_df) * 0.2))]. *)
Definition merge_tables (all_tables : list DataFrame) : result DataFrame :=
  pd.concat all_tables.

Definition prune_sparse (merged_df : DataFrame) : DataFrame :=
  let threshold := length (data merged_df) / 5 in
  pd.dropna_columns_thresh (Nat.max 1 threshold) merged_df.

(** The columns dropped after the fill-rate cut.  [cell_non_empty x] is
    [bool(str(x).strip()) if pd.notna(x) else False].  The two
    definitions below are the loops over duplicate-free labels, where
    [merged_df[col]] is one column. *)
Definition non_blank_count (df : DataFrame) (j : nat) : nat :=
  length (filter (fun x => cell_non_empty x) (pd.column_values df j)).

(** The loop that drops the columns all of whose values are blank. *)
Definition drop_blank_columns (merged_df : DataFrame) : DataFrame :=
  pd.select_columns
    (filter (fun j => 0 < non_blank_count merged_df j)
            (seq 0 (length (columns merged_df)))) merged_df.

(** [col_str == '' or col_str == 'None'] for [col_str = str(col).strip()] *)
Definition unnamed (col : string) : bool :=
  let col_str := Py.strip col in
  bool_decide (col_str = "") || bool_decide (col_str = "None").

(** [non_empty < len(merged_df) * 0.3], on integers: the double product
    is the exact value whenever that value is an integer. *)
Definition sparse_30 (rowcount non_empty : nat) : bool :=
  10 * non_empty <? 3 * rowcount.

(** The loop that collects [cols_to_drop], and the drop. *)
Definition drop_unnamed_sparse (merged_df : DataFrame) : DataFrame :=
  pd.select_columns
    (filter (fun j => ¬ (unnamed (default "" (columns merged_df !! j))
                         ∧ sparse_30 (length (data merged_df)) (non_blank_count merged_df j)))
            (seq 0 (length (columns merged_df)))) merged_df.

(** The end of [tables_to_dataframe], from [if all_tables:] on.  When a
    label is repeated after the fill-rate cut, [merged_df[col]] is a
    frame of several columns for it and the test of the first loop
    raises [ValueError] (the truth value of a Series). *)
Definition merged_dataframe (all_tables : list DataFrame) : result DataFrame :=
  match all_tables with
  | [] => Ok (Frame [] [])
  | _ :: _ =>
      merged_df ← merge_tables all_tables;
      let merged_df := prune_sparse merged_df in
      if bool_decide (NoDup (columns merged_df)) then
        Ok (drop_unnamed_sparse (drop_blank_columns merged_df))
      else Raise ValueError
  end.


(** The merged labels in the words of the specification: the labels of
    all the tables, each kept where it is first seen. *)
Fixpoint first_seen (l : list string) : list string :=
  match l with
  | [] => []
  | x :: l' => x :: filter (fun y => y ≠ x) (first_seen l')
  end.

(** ** [_format_text] *)

Definition newline : ascii := ascii_of_nat 10.
Definition is_newline (c : ascii) : bool := bool_decide (c = newline).
Definition is_blank (c : ascii) : bool :=
  bool_decide (c = ascii_of_nat 32) || bool_decide (c = ascii_of_nat 9).

Fixpoint repeat_char (c : ascii) (n : nat) : string :=
  match n with
  | 0 => EmptyString
  | S n' => String c (repeat_char c n')
  end.

(** [re.sub(r'\n{3,}', '\n\n', text)]; [run] counts the newlines read
    since the last other character. *)
Fixpoint squeeze_newlines (run : nat) (text : string) : string :=
  match text with
  | EmptyString => repeat_char newline (if 3 <=? run then 2 else run)
  | String c text' =>
      if is_newline c then squeeze_newlines (S run) text'
      else repeat_char newline (if 3 <=? run then 2 else run)
           +:+ String c (squeeze_newlines 0 text')
  end.

(** [re.sub(r'[ \t]+', ' ', text)]; [in_run] says that the character
    before was a space or a tab. *)
Fixpoint squeeze_blanks (in_run : bool) (text : string) : string :=
  match text with
  | EmptyString => EmptyString
  | String c text' =>
      if is_blank c
      then (if in_run then squeeze_blanks true text'
            else String (ascii_of_nat 32) (squeeze_blanks true text'))
      else String c (squeeze_blanks false text')
  end.

(** [text.split('\n')] *)
Fixpoint split_lines (text : string) : list string :=
  match text with
  | EmptyString => [EmptyString]
  | String c text' =>
      if is_newline c then EmptyString :: split_lines text'
      else match split_lines text' with
           | [] => [String c EmptyString]
           | line :: lines => String c line :: lines
           end
  end.

(** ['\n'.join(lines)] *)
Fixpoint join_lines (lines : list string) : string :=
  match lines with
  | [] => EmptyString
  | [line] => line
  | line :: lines' => line +:+ String newline (join_lines lines')
  end.

Definition page_header (page_num total_pages : Z) : string :=
  String newline (repeat_char "=" 60) +:+ String newline
    ("Page " +:+ Py.str_of_int page_num +:+ " of " +:+ Py.str_of_int total_pages)
  +:+ String newline (repeat_char "=" 60) +:+ String newline (String newline EmptyString).

(** One iteration of the loop over [lines]. *)
Definition reflow_step (formatted_lines : list string) (line : string) : list string :=
  let line := Py.strip line in
  if Py.truthy line then formatted_lines ++ [line]
  else match last formatted_lines with
       | Some previous => if Py.truthy previous then formatted_lines ++ [EmptyString]
                          else formatted_lines
       | None => formatted_lines
       end.

Definition _format_text (text : string) (page_num total_pages : Z) : string :=
  if negb (Py.truthy text) then EmptyString else
  let text := squeeze_newlines 0 text in
  let text := squeeze_blanks false text in
  let text := if (1 <? total_pages)%Z then page_header page_num total_pages +:+ text else text in
  let lines := split_lines text in
  join_lines (foldl reflow_step [] lines).

(** ** Occupancy, stated directly on the grid *)

(** The cell of row [r] at column [i] is present and not blank. *)
Definition nonempty_at (r : row) (i : nat) : bool :=
  match r !! i with
  | Some c => cell_non_empty c
  | None => false
  end.

(** The number of rows with a non-blank cell at column [i]. *)
Definition column_count (rows : list row) (i : nat) : nat :=
  length (filter (fun r => nonempty_at r i) rows).

(** The occupied column indices of a row, in increasing order. *)
Definition occupied (r : row) : list nat :=
  filter (fun i => nonempty_at r i) (seq 0 (length r)).

(** The width of a grid: the length of its longest row. *)
Definition width (table : grid) : nat := max_list (length <$> table).

(** ** Predicates used in the statements and invariants *)

(** A grid none of whose cells is filled. *)
Definition all_blank (table : grid) : Prop := Forall (fun r => occupied r = []) table.

(** A grid whose rows all have the length [w] and whose cells are all
    filled. *)
Definition full_grid (w : nat) (table : grid) : Prop :=
  Forall (fun r => length r = w ∧ Forall (fun c => cell_non_empty c = true) r) table.


(** The string contains the character [_], which separates a name from
    its suffix. *)
Fixpoint has_underscore (s : string) : bool :=
  match s with
  | EmptyString => false
  | String c s' => bool_decide (c = "_"%char) || has_underscore s'
  end.

(** No character of the string is a newline; none is white space. *)
Fixpoint no_newline (s : string) : bool :=
  match s with
  | EmptyString => true
  | String c s' => negb (is_newline c) && no_newline s'
  end.

Fixpoint no_space (s : string) : bool :=
  match s with
  | EmptyString => true
  | String c s' => negb (Py.isspace c) && no_space s'
  end.

(** No two neighbouring lines are both empty. *)
Fixpoint no_blank_pair (lines : list string) : Prop :=
  match lines with
  | l1 :: ((l2 :: _) as rest) => ¬ (l1 = EmptyString ∧ l2 = EmptyString) ∧ no_blank_pair rest
  | _ => True
  end.

(** The lines kept by the re-flow: each is stripped and holds no newline,
    and no two neighbours are both empty. *)
Definition reflowed (lines : list string) : Prop :=
  Forall (fun l => Py.strip l = l ∧ no_newline l = true) lines
  ∧ no_blank_pair lines.

(** The newlines of the string come in runs of two at most, [run] of them
    standing before it. *)
Fixpoint runs_ok (run : nat) (s : string) : bool :=
  match s with
  | EmptyString => run <=? 2
  | String c s' =>
      if is_newline c then runs_ok (S run) s' else (run <=? 2) && runs_ok 0 s'
  end.

(** The string holds no tab and no two spaces in a row; [in_run] says that
    a space stands before it. *)
Fixpoint blanks_ok (in_run : bool) (s : string) : bool :=
  match s with
  | EmptyString => true
  | String c s' =>
      if is_blank c
      then negb in_run && bool_decide (c = ascii_of_nat 32) && blanks_ok true s'
      else blanks_ok false s'
  end.

(** A string that is empty or starts with a character that is no space. *)
Definition starts_clean (s : string) : Prop :=
  match s with
  | EmptyString => True
  | String c _ => Py.isspace c = false
  end.

(** The lines kept so far: none, or a first line that is not blank. *)
Definition head_clean (lines : list string) : Prop :=
  match lines with
  | [] => True
  | line :: _ => Py.truthy line = true ∧ starts_clean line
  end.

(** * Properties *)

(** ** Column naming *)

Section unique_columns.

Implicit Types (columns : list cell) (names : list string) (x : string).

Lemma occurrences_before_app names x0 i x :
  i ≤ length names →
  occurrences_before (names ++ [x0]) i x = occurrences_before names i x.
Proof. intros Hi. unfold occurrences_before. by rewrite take_app_le. Qed.

Lemma suffixed_name_app names x0 i x :
  i ≤ length names →
  suffixed_name (names ++ [x0]) i x = suffixed_name names i x.
Proof. intros Hi. unfold suffixed_name. by rewrite occurrences_before_app. Qed.

Lemma occurrences_before_snoc names x0 x :
  occurrences_before (names ++ [x0]) (length (names ++ [x0])) x
  = occurrences_before names (length names) x + (if decide (x = x0) then 1 else 0).
Proof.
  unfold occurrences_before. rewrite !firstn_all, filter_app, length_app.
  f_equal. rewrite filter_cons, filter_nil. by destruct (decide (x = x0)).
Qed.

(** The loop invariant: [seen] holds, for every name met so far, the number
    of its earlier occurrences less one, and [result] follows the rule. *)
Lemma unique_fold_invariant columns :
  let names := column_name <$> columns in
  let st := foldl unique_step (∅, []) columns in
  (∀ x, st.1 !! x = match occurrences_before names (length names) x with
                    | 0 => None
                    | S k => Some k
                    end)
  ∧ st.2 = imap (suffixed_name names) names.
Proof.
  induction columns as [|c columns IH] using rev_ind; [done|].
  cbn zeta in *. destruct IH as [Hseen Hres].
  rewrite foldl_snoc, fmap_app. cbn [fmap list_fmap].
  set (names := column_name <$> columns) in *.
  set (st := foldl unique_step (∅, []) columns) in *.
  set (x0 := column_name c).
  assert (Hold : imap (suffixed_name (names ++ [x0])) names = st.2).
  { rewrite Hres. apply imap_ext. intros i y Hi.
    apply suffixed_name_app, Nat.lt_le_incl. by eapply lookup_lt_Some. }
  assert (Hnew : suffixed_name (names ++ [x0]) (length names) x0
                 = match st.1 !! x0 with
                   | Some n => x0 +:+ "_" +:+ Py.str_of_nat (S n)
                   | None => x0
                   end).
  { rewrite suffixed_name_app by done. unfold suffixed_name. rewrite Hseen.
    by destruct (occurrences_before names (length names) x0). }
  split.
  - intros x. rewrite occurrences_before_snoc. unfold unique_step. fold x0.
    specialize (Hseen x). pose proof (Hseen0 := Hseen).
    destruct (decide (x = x0)) as [->|Hne].
    + rewrite Nat.add_1_r. destruct (st.1 !! x0) as [n|] eqn:E; cbn [fst];
        rewrite lookup_insert_eq;
        destruct (occurrences_before names (length names) x0); congruence.
    + rewrite Nat.add_0_r.
      destruct (st.1 !! x0) as [n|]; cbn [fst]; by rewrite lookup_insert_ne.
  - rewrite imap_app. cbn [imap]. rewrite Nat.add_0_r, Hold, Hnew.
    unfold unique_step. fold x0. by destruct (st.1 !! x0).
Qed.

End unique_columns.

(** C3. For every list of header names, [_make_unique_columns] gives each
    name, after [None] has become the empty string and the name has been
    trimmed, its bare form at its first occurrence and the suffix [_1],
    [_2], ... at its later occurrences, in the order of appearance; and
    [["Name","Total","Name"]] becomes [["Name","Total","Name_1"]]. *)
Theorem make_unique_columns_suffixes :
  (∀ columns : list cell,
     let names := column_name <$> columns in
     _make_unique_columns columns = imap (suffixed_name names) names)
  ∧ _make_unique_columns [Some "Name"; Some "Total"; Some "Name"]
    = ["Name"; "Total"; "Name_1"].
Proof.
  split.
  - intros columns. apply unique_fold_invariant.
  - reflexivity.
Qed.

(** C4. On the header [["Name","Name","Name_1"]] the second [Name] is
    renamed to [Name_1], which the third header already is: the names
    returned by [_make_unique_columns] are not duplicate-free. *)
Theorem make_unique_columns_collision :
  _make_unique_columns [Some "Name"; Some "Name"; Some "Name_1"]
  = ["Name"; "Name_1"; "Name_1"]
  ∧ ¬ NoDup (_make_unique_columns [Some "Name"; Some "Name"; Some "Name_1"]).
Proof.
  split; [reflexivity|].
  intros Hnd. vm_compute in Hnd.
  apply NoDup_cons in Hnd as [_ Hnd]. apply NoDup_cons in Hnd as [Hin _].
  apply Hin. left.
Qed.

(** ** Loops over rows and cells *)

Section loops.

Lemma foldlM_snoc {A B} (f : A → B → result A) (a : A) (l : list B) (x : B) :
  foldlM f a (l ++ [x]) = foldlM f a l ≫= fun a' => f a' x.
Proof.
  revert a. induction l as [|y l IH]; intros a; cbn.
  - by destruct (f a x).
  - destruct (f a y); cbn; [apply IH|done].
Qed.

Lemma enumerate_snoc {A} (l : list A) (x : A) :
  Py.enumerate (l ++ [x]) = Py.enumerate l ++ [(length l, x)].
Proof. unfold Py.enumerate. rewrite imap_app. cbn. by rewrite Nat.add_0_r. Qed.

Lemma enumerate_lookup {A} (l : list A) (i : nat) :
  Py.enumerate l !! i = pair i <$> l !! i.
Proof. apply list_lookup_imap. Qed.

Lemma length_enumerate {A} (l : list A) : length (Py.enumerate l) = length l.
Proof. apply length_imap. Qed.

Lemma filter_ext_in {A} (P Q : A → Prop) `{∀ x, Decision (P x)} `{∀ x, Decision (Q x)}
    (l : list A) :
  (∀ x, x ∈ l → P x ↔ Q x) → filter P l = filter Q l.
Proof.
  induction l as [|x l IH]; intros Hext; [done|].
  rewrite !filter_cons.
  destruct (decide (P x)) as [HP|HP], (decide (Q x)) as [HQ|HQ].
  - f_equal. apply IH. intros y Hy. apply Hext. by right.
  - exfalso. apply HQ, Hext; [left|done].
  - exfalso. apply HP, Hext; [left|done].
  - apply IH. intros y Hy. apply Hext. by right.
Qed.

Lemma nonempty_at_snoc (r : row) (c : cell) (i : nat) :
  nonempty_at (r ++ [c]) i
  = if decide (i = length r) then cell_non_empty c else nonempty_at r i.
Proof.
  unfold nonempty_at. destruct (decide (i = length r)) as [->|Hne].
  - by rewrite list_lookup_middle.
  - destruct (decide (i < length r)) as [Hlt|Hge].
    + by rewrite lookup_app_l.
    + rewrite (proj2 (lookup_ge_None r i)) by lia.
      rewrite (proj2 (lookup_ge_None (r ++ [c]) i)); [done|].
      rewrite length_app. cbn. lia.
Qed.

Lemma nonempty_at_ge (r : row) (i : nat) : length r ≤ i → nonempty_at r i = false.
Proof. intros H. unfold nonempty_at. by rewrite (proj2 (lookup_ge_None r i)). Qed.

Lemma nonempty_at_lt (r : row) (i : nat) : nonempty_at r i = true → i < length r.
Proof.
  intros H. destruct (decide (i < length r)); [done|].
  rewrite nonempty_at_ge in H by lia. done.
Qed.

Lemma occupied_snoc (r : row) (c : cell) :
  occupied (r ++ [c])
  = occupied r ++ (if cell_non_empty c then [length r] else []).
Proof.
  unfold occupied. rewrite length_app. cbn [length].
  rewrite Nat.add_1_r, seq_S, filter_app. cbn [Nat.add]. f_equal.
  - apply filter_ext_in. intros i Hi. apply elem_of_seq in Hi.
    rewrite nonempty_at_snoc. destruct (decide (i = length r)); [lia|done].
  - rewrite filter_cons, filter_nil, nonempty_at_snoc.
    destruct (decide (length r = length r)); [|done].
    by destruct (cell_non_empty c).
Qed.

(** [_get_non_empty_indices] lists the occupied columns in increasing
    order, and [_count_non_empty_cells] counts them. *)
Lemma get_non_empty_indices_occupied (r : row) :
  _get_non_empty_indices r = occupied r.
Proof.
  unfold _get_non_empty_indices.
  induction r as [|c r IH] using rev_ind; [done|].
  rewrite enumerate_snoc, foldl_snoc, IH, occupied_snoc. cbn [fst snd].
  destruct (cell_non_empty c); [done|by rewrite app_nil_r].
Qed.

Lemma count_non_empty_cells_occupied (r : row) :
  _count_non_empty_cells r = length (occupied r).
Proof.
  unfold _count_non_empty_cells.
  induction r as [|c r IH] using rev_ind; [done|].
  rewrite foldl_snoc, IH, occupied_snoc, length_app.
  destruct (cell_non_empty c); cbn; lia.
Qed.

Lemma elem_of_occupied (r : row) (i : nat) :
  i ∈ occupied r ↔ nonempty_at r i = true.
Proof.
  unfold occupied. rewrite list_elem_of_filter, elem_of_seq. split.
  - intros [H _]. by apply Is_true_true.
  - intros H. split; [by apply Is_true_true|].
    apply nonempty_at_lt in H. lia.
Qed.

(** The counting loops never index out of range when the counters are as
    wide as the rows, and they count. *)
Lemma count_row_ok (counts : list nat) (r : row) :
  length r ≤ length counts →
  count_row counts r
  = Ok (imap (fun i n => if nonempty_at r i then S n else n) counts).
Proof.
  unfold count_row. induction r as [|c r IH] using rev_ind; intros Hlen.
  - cbn. f_equal. rewrite <- (list_fmap_id counts) at 1.
    rewrite <- imap_const. apply imap_ext. intros i n _.
    by rewrite nonempty_at_ge by (cbn; lia).
  - rewrite length_app in Hlen. cbn in Hlen.
    rewrite enumerate_snoc, foldlM_snoc, IH by lia. cbn [mbind result_bind fst snd].
    destruct (cell_non_empty c) eqn:Ec.
    + unfold incr_at. rewrite list_lookup_imap.
      destruct (counts !! length r) as [n|] eqn:En.
      2:{ apply lookup_ge_None in En. lia. }
      cbn. rewrite nonempty_at_ge by lia. f_equal. apply list_eq. intros i.
      destruct (decide (i = length r)) as [->|Hne].
      * rewrite list_lookup_insert_eq by (rewrite length_imap; lia).
        rewrite list_lookup_imap, En. cbn.
        rewrite nonempty_at_snoc. destruct (decide (length r = length r)); [|done].
        by rewrite Ec.
      * rewrite list_lookup_insert_ne by done. rewrite !list_lookup_imap.
        destruct (counts !! i); [|done]. cbn.
        rewrite nonempty_at_snoc. by destruct (decide (i = length r)).
    + f_equal. apply imap_ext. intros i n _. rewrite nonempty_at_snoc.
      destruct (decide (i = length r)) as [->|]; [|done].
      by rewrite Ec, nonempty_at_ge.
Qed.

Lemma count_rows_ok (rows : list row) (counts : list nat) :
  Forall (fun r => length r ≤ length counts) rows →
  ∃ usage, foldlM count_row counts rows = Ok usage
    ∧ length usage = length counts
    ∧ ∀ i n, counts !! i = Some n → usage !! i = Some (n + column_count rows i).
Proof.
  revert counts. induction rows as [|r rows IH]; intros counts Hrows.
  - exists counts. split; [done|]. split; [done|]. intros i n ->. f_equal. cbn. lia.
  - apply Forall_cons in Hrows as [Hr Hrows]. cbn [foldlM].
    rewrite count_row_ok by done. cbn [mbind result_bind].
    destruct (IH (imap (fun i n => if nonempty_at r i then S n else n) counts))
      as (usage & Hrun & Hlen & Hlook).
    { by rewrite length_imap. }
    exists usage. split; [done|]. split; [by rewrite Hlen, length_imap|].
    intros i n Hi. rewrite (Hlook i (if nonempty_at r i then S n else n)).
    + f_equal. unfold column_count. rewrite filter_cons.
      destruct (nonempty_at r i) eqn:E.
      * rewrite decide_True by done. cbn. lia.
      * rewrite decide_False; [lia|]. by intros [].
    + by rewrite list_lookup_imap, Hi.
Qed.

Lemma count_columns_ok (n : nat) (rows : list row) :
  Forall (fun r => length r ≤ n) rows →
  ∃ usage, count_columns n rows = Ok usage
    ∧ length usage = n
    ∧ ∀ i, i < n → usage !! i = Some (column_count rows i).
Proof.
  intros Hrows. destruct (count_rows_ok rows (replicate n 0)) as (usage & Hrun & Hlen & Hlook).
  { by rewrite length_replicate. }
  exists usage. split; [done|]. rewrite length_replicate in Hlen. split; [done|].
  intros i Hi. apply (Hlook i 0). by apply lookup_replicate_2.
Qed.

Lemma py_max_ok (x : nat) (l : list nat) : py_max (x :: l) = Ok (max_list (x :: l)).
Proof.
  cbn [py_max]. f_equal. revert x. induction l as [|y l IH]; intros x.
  - cbn. lia.
  - cbn [foldl]. rewrite IH. cbn. lia.
Qed.

Lemma width_ge (table : grid) (r : row) : r ∈ table → length r ≤ width table.
Proof. intros H. apply max_list_elem_of_le. by apply list_elem_of_fmap_2. Qed.

End loops.

(** ** The structure detector *)

Section detector.

Implicit Types (table : grid) (r : row).

Lemma row_profiles_imap table : row_profiles table = imap row_profile table.
Proof. unfold row_profiles, Py.enumerate. rewrite fmap_imap. by apply imap_ext. Qed.

Lemma row_profiles_lookup table i :
  row_profiles table !! i = row_profile i <$> table !! i.
Proof. rewrite row_profiles_imap. apply list_lookup_imap. Qed.

Lemma row_profiles_counts table :
  non_empty <$> row_profiles table = _count_non_empty_cells <$> table.
Proof.
  rewrite row_profiles_imap, fmap_imap, <- imap_const. by apply imap_ext.
Qed.

Lemma dense_counts_profiles table :
  dense_counts (row_profiles table)
  = filter (fun n => 2 ≤ n) (_count_non_empty_cells <$> table).
Proof. unfold dense_counts. by rewrite row_profiles_counts. Qed.

Lemma counter_add_keys x c k :
  k ∈ Counter.keys (Counter.add x c) ↔ k = x ∨ k ∈ Counter.keys c.
Proof.
  unfold Counter.keys. induction c as [|[k' n] c IH]; cbn.
  - rewrite list_elem_of_singleton, elem_of_nil. tauto.
  - destruct (decide (k' = x)) as [->|Hne]; cbn; rewrite !elem_of_cons.
    + tauto.
    + rewrite IH. tauto.
Qed.

Lemma counter_of_list_keys l k :
  k ∈ Counter.keys (Counter.of_list l) ↔ k ∈ l.
Proof.
  unfold Counter.of_list.
  induction l as [|x l IH] using rev_ind; [done|].
  rewrite foldl_snoc, counter_add_keys, IH, elem_of_app, list_elem_of_singleton. tauto.
Qed.

Lemma max_by_key_in {A} (key : A → nat * nat) (x : A) (l : list A) :
  max_by_key key x l ∈ x :: l.
Proof.
  unfold max_by_key. revert x. induction l as [|y l IH]; intros x; cbn [foldl].
  - left.
  - destruct (pair_lt (key x) (key y)).
    + right. apply IH.
    + specialize (IH x). apply elem_of_cons in IH as [->|IH]; [left|].
      right. by right.
Qed.

(** The target is the non-empty count of a row with two cells or more. *)
Lemma target_col_count_in l : l ≠ [] → target_col_count l ∈ l.
Proof.
  intros Hl. unfold target_col_count.
  destruct (Counter.keys (Counter.of_list l)) as [|k ks] eqn:E.
  - destruct l as [|x l]; [done|].
    assert (x ∈ Counter.keys (Counter.of_list (x :: l))) as Hx
      by (apply counter_of_list_keys; left).
    rewrite E in Hx. by apply not_elem_of_nil in Hx.
  - apply counter_of_list_keys. rewrite E. apply max_by_key_in.
Qed.

Lemma find_lookup {A} (P : A → bool) (l : list A) :
  match List.find P l with
  | Some p => ∃ i, l !! i = Some p ∧ P p = true
                ∧ ∀ j q, j < i → l !! j = Some q → P q = false
  | None => ∀ q, q ∈ l → P q = false
  end.
Proof.
  induction l as [|x l IH]; cbn [List.find].
  - intros q Hq. by apply not_elem_of_nil in Hq.
  - destruct (P x) eqn:Ex.
    + exists 0. repeat split; [done|]. intros j q Hj. lia.
    + destruct (List.find P l) as [p|].
      * destruct IH as (i & Hi & Hp & Hfirst). exists (S i).
        split; [done|]. split; [done|]. intros [|j] q Hj Hq.
        -- cbn in Hq. congruence.
        -- apply (Hfirst j); [lia|done].
      * intros q Hq. apply elem_of_cons in Hq as [->|Hq]; [done|by apply IH].
Qed.

Lemma find_header_lt target table :
  table ≠ [] → find_header target (row_profiles table) < length table.
Proof.
  intros Hne. unfold find_header.
  pose proof (find_lookup (fun p => meets_half target (non_empty p)) (row_profiles table)) as H.
  destruct (List.find _ _) as [p|].
  - destruct H as (i & Hi & _). rewrite row_profiles_lookup in Hi.
    destruct (table !! i) as [r|] eqn:Er; [|done]. cbn in Hi.
    injection Hi as <-. cbn. by eapply lookup_lt_Some.
  - destruct table; [done|cbn; lia].
Qed.

(** When some row meets the bound, the header is the first such row. *)
Lemma find_header_first target table r0 :
  r0 ∈ table → meets_half target (_count_non_empty_cells r0) = true →
  ∃ r, table !! find_header target (row_profiles table) = Some r
    ∧ meets_half target (_count_non_empty_cells r) = true
    ∧ ∀ j r', j < find_header target (row_profiles table) → table !! j = Some r' →
              meets_half target (_count_non_empty_cells r') = false.
Proof.
  intros Hin Hmeets. unfold find_header.
  pose proof (find_lookup (fun p => meets_half target (non_empty p)) (row_profiles table)) as H.
  destruct (List.find _ _) as [p|].
  - destruct H as (i & Hi & Hp & Hfirst). rewrite row_profiles_lookup in Hi.
    destruct (table !! i) as [r|] eqn:Er; [|done]. cbn in Hi.
    injection Hi as <-. cbn in *. exists r. split; [done|]. split; [done|].
    intros j r' Hj Hr'. apply (Hfirst j (row_profile j r')); [done|].
    by rewrite row_profiles_lookup, Hr'.
  - apply list_elem_of_lookup in Hin as [i Hi].
    specialize (H (row_profile i r0)). cbn in H. rewrite H in Hmeets; [done|].
    apply list_elem_of_lookup. exists i. by rewrite row_profiles_lookup, Hi.
Qed.

(** The detector never raises; these are its four ways out. *)
Lemma find_table_structure_run table :
  let counts := dense_counts (row_profiles table) in
  let h := find_header (target_col_count counts) (row_profiles table) in
  (length table < 2 ∧ _find_table_structure table = Ok (0, None))
  ∨ (2 ≤ length table ∧ counts = [] ∧ _find_table_structure table = Ok (0, None))
  ∨ (2 ≤ length table ∧ counts ≠ [] ∧ length table = S h
     ∧ _find_table_structure table = Ok (h, None))
  ∨ (2 ≤ length table ∧ counts ≠ [] ∧ S h < length table
     ∧ ∃ col_usage,
         length col_usage = width table
         ∧ (∀ i, i < width table →
                 col_usage !! i = Some (column_count (drop (S h) table) i))
         ∧ _find_table_structure table
           = Ok (h, Some (detect_columns (length table - S h) (width table) col_usage
                            (default [] (table !! h))))).
Proof.
  cbn zeta. unfold _find_table_structure.
  destruct (length table <? 2) eqn:Elen.
  { left. apply Nat.ltb_lt in Elen. done. }
  apply Nat.ltb_ge in Elen. right.
  destruct (dense_counts (row_profiles table)) as [|n ns] eqn:Ecounts.
  { left. done. }
  right. set (h := find_header (target_col_count (n :: ns)) (row_profiles table)).
  assert (Hh : h < length table).
  { apply find_header_lt. intros ->. cbn in Elen. lia. }
  destruct (S h <? length table) eqn:Eh.
  - apply Nat.ltb_lt in Eh. right.
    destruct (drop (S h) table) as [|d ds] eqn:Edrop.
    { apply (f_equal length) in Edrop. rewrite length_drop in Edrop. cbn in Edrop. lia. }
    rewrite <- Edrop.
    destruct table as [|r0 table']; [cbn in Elen; lia|].
    rewrite fmap_cons, py_max_ok, <- fmap_cons. cbn [mbind result_bind].
    fold (width (r0 :: table')).
    destruct (count_columns_ok (width (r0 :: table')) (drop (S h) (r0 :: table')))
      as (usage & Hrun & Hlen & Hlook).
    { apply Forall_forall. intros r Hr. apply width_ge.
      by eapply subseteq_drop. }
    rewrite Hrun. cbn [mbind result_bind]. rewrite length_drop.
    split; [done|]. split; [done|]. split; [done|]. by exists usage.
  - apply Nat.ltb_ge in Eh. left.
    split; [done|]. split; [done|]. split; [lia|done].
Qed.

End detector.

Lemma meets_half_spec target n :
  meets_half target n = true ↔ 2 ≤ n ∧ target ≤ 2 * n.
Proof.
  unfold meets_half. rewrite andb_true_iff, !Nat.leb_le. done.
Qed.

Lemma count_non_empty_cells_le (r : row) : _count_non_empty_cells r ≤ length r.
Proof.
  rewrite count_non_empty_cells_occupied. unfold occupied.
  etrans; [apply length_filter|]. by rewrite length_seq.
Qed.

(** C2. For every grid in which some row has two non-empty cells or more,
    the detector returns as header index the index of the first row whose
    non-empty count is at least [max(2, target * 0.5)], [target] being the
    detected target column count; and for a blank first row, then
    [["ID","Name","Amt"]], then five data rows filled in all three columns,
    the header index is 1. *)
Theorem header_index_first_dense_row :
  (∀ table : grid,
     Exists (fun r => 2 ≤ _count_non_empty_cells r) table →
     let target :=
       target_col_count (filter (fun n => 2 ≤ n) (_count_non_empty_cells <$> table)) in
     ∃ h cols r,
       _find_table_structure table = Ok (h, cols)
       ∧ table !! h = Some r
       ∧ (2 ≤ _count_non_empty_cells r ∧ target ≤ 2 * _count_non_empty_cells r)
       ∧ ∀ j r', j < h → table !! j = Some r' →
           ¬ (2 ≤ _count_non_empty_cells r' ∧ target ≤ 2 * _count_non_empty_cells r'))
  ∧ (∀ data_rows : grid,
       length data_rows = 5 →
       Forall (fun d => length d = 3 ∧ Forall (fun c => cell_non_empty c = true) d)
              data_rows →
       ∃ cols,
         _find_table_structure
           ([Some ""; Some ""; Some ""] :: [Some "ID"; Some "Name"; Some "Amt"] :: data_rows)
         = Ok (1, cols)).
Proof.
  assert (Hgeneral : ∀ table : grid,
     Exists (fun r => 2 ≤ _count_non_empty_cells r) table →
     let target :=
       target_col_count (filter (fun n => 2 ≤ n) (_count_non_empty_cells <$> table)) in
     ∃ h cols r,
       _find_table_structure table = Ok (h, cols)
       ∧ table !! h = Some r
       ∧ (2 ≤ _count_non_empty_cells r ∧ target ≤ 2 * _count_non_empty_cells r)
       ∧ ∀ j r', j < h → table !! j = Some r' →
           ¬ (2 ≤ _count_non_empty_cells r' ∧ target ≤ 2 * _count_non_empty_cells r')).
  { intros table Hex target.
    apply Exists_exists in Hex as (r0 & Hr0 & Hdense).
    set (counts := filter (fun n => 2 ≤ n) (_count_non_empty_cells <$> table)) in *.
    assert (Hcounts : counts ≠ []).
    { intros E. eapply (filter_nil_not_elem_of _ _ _ E); [exact Hdense|].
      by apply list_elem_of_fmap_2. }
    assert (Htarget : target ∈ counts) by by apply target_col_count_in.
    apply list_elem_of_filter in Htarget as [Ht2 Htin].
    apply list_elem_of_fmap in Htin as (r1 & Ht & Hr1).
    assert (Hmeets : meets_half target (_count_non_empty_cells r1) = true).
    { apply meets_half_spec. lia. }
    pose proof (find_table_structure_run table) as Hrun. cbn zeta in Hrun.
    rewrite dense_counts_profiles in Hrun. fold counts target in Hrun.
    destruct (find_header_first target table r1 Hr1 Hmeets) as (r & Hr & Hm & Hfirst).
    assert (Hnot : ∀ j r', j < find_header target (row_profiles table) →
              table !! j = Some r' →
              ¬ (2 ≤ _count_non_empty_cells r' ∧ target ≤ 2 * _count_non_empty_cells r')).
    { intros j r' Hj Hr' Hc. apply meets_half_spec in Hc.
      rewrite (Hfirst j r' Hj Hr') in Hc. done. }
    apply meets_half_spec in Hm.
    destruct Hrun as [[Hlen Hrun]|[(_ & E & _)|[(_ & _ & _ & Hrun)|(_ & _ & _ & u & _ & _ & Hrun)]]].
    - destruct table as [|r' [|r'' table]]; [by apply not_elem_of_nil in Hr1| |cbn in Hlen; lia].
      apply list_elem_of_singleton in Hr1 as ->.
      exists 0, None, r'. split; [done|]. split; [done|].
      split; [apply meets_half_spec, Hmeets|]. intros j ? Hj. lia.
    - done.
    - eexists _, _, r. split; [exact Hrun|]. done.
    - eexists _, _, r. split; [exact Hrun|]. done. }
  split; [exact Hgeneral|].
  intros data_rows Hlen Hdata.
  set (table := [Some ""; Some ""; Some ""] :: [Some "ID"; Some "Name"; Some "Amt"] :: data_rows).
  destruct (Hgeneral table) as (h & cols & r & Hrun & Hr & Hm & Hfirst).
  { apply Exists_cons_tl, Exists_cons_hd. vm_compute. lia. }
  cbn zeta in *.
  set (target := target_col_count _) in *.
  assert (Htarget : target ≤ 3).
  { assert (Hin : target ∈ filter (fun n => 2 ≤ n) (_count_non_empty_cells <$> table)).
    { apply target_col_count_in. intros E.
      eapply (filter_nil_not_elem_of _ _ 3 E); [lia|]. right. left. }
    apply list_elem_of_filter in Hin as [_ Hin].
    apply list_elem_of_fmap in Hin as (r1 & -> & Hr1).
    etrans; [apply count_non_empty_cells_le|].
    apply elem_of_cons in Hr1 as [->|Hr1]; [done|].
    apply elem_of_cons in Hr1 as [->|Hr1]; [done|].
    rewrite Forall_forall in Hdata. destruct (Hdata r1 Hr1) as [-> _]. done. }
  exists cols. rewrite Hrun. repeat f_equal.
  destruct h as [|[|h]]; [|done|].
  - cbn in Hr. injection Hr as <-. vm_compute in Hm. lia.
  - exfalso. apply (Hfirst 1 [Some "ID"; Some "Name"; Some "Amt"]); [lia|done|].
    change (_count_non_empty_cells [Some "ID"; Some "Name"; Some "Amt"]) with 3. lia.
Qed.

Lemma header_index_first_dense_row_witness :
  ∃ cols,
    _find_table_structure
      ([Some ""; Some ""; Some ""] :: [Some "ID"; Some "Name"; Some "Amt"]
       :: replicate 5 [Some "1"; Some "Ann"; Some "10"])
    = Ok (1, cols).
Proof.
  apply (proj2 header_index_first_dense_row); [reflexivity|].
  repeat constructor.
Defined.

(** ** The cleaner *)

Section cleaner.

Implicit Types (table : grid) (r : row).

Lemma find_table_structure_total table :
  ∃ h cols, _find_table_structure table = Ok (h, cols)
    ∧ (table ≠ [] → h < length table).
Proof.
  pose proof (find_table_structure_run table) as Hrun. cbn zeta in Hrun.
  assert (Hpos : table ≠ [] → 0 < length table).
  { destruct table; [done|]. cbn. lia. }
  destruct Hrun as [[_ H]|[(_ & _ & H)|[(_ & _ & Hh & H)|(_ & _ & Hh & u & _ & _ & H)]]];
    eexists _, _; (split; [exact H|]); intros; auto; lia.
Qed.

Lemma mapM_ok {A B} (f : A → result B) (l : list A) :
  (∀ x, x ∈ l → ∃ y, f x = Ok y) →
  ∃ ys, mapM f l = Ok ys ∧ length ys = length l.
Proof.
  induction l as [|x l IH]; intros Hall.
  - by exists [].
  - destruct (Hall x) as [y Hy]; [left|].
    destruct IH as (ys & Hys & Hlen).
    { intros z Hz. apply Hall. by right. }
    exists (y :: ys). cbn. rewrite Hy. cbn. rewrite Hys. cbn.
    by rewrite Hlen.
Qed.

Lemma length_insert_by {A} (le : A → A → bool) (x : A) (l : list A) :
  length (insert_by le x l) = S (length l).
Proof.
  induction l as [|y l IH]; [done|]. cbn.
  destruct (le x y); cbn; [done|by rewrite IH].
Qed.

Lemma length_sort_by {A} (le : A → A → bool) (l : list A) :
  length (sort_by le l) = length l.
Proof.
  unfold sort_by. induction l as [|x l IH]; [done|].
  cbn. by rewrite length_insert_by, IH.
Qed.

Lemma column_count_zero_blank table :
  (∀ i, i < width table → column_count table i = 0) → all_blank table.
Proof.
  intros Hzero. apply Forall_forall. intros r Hr.
  apply elem_of_nil_inv. intros i Hi. apply elem_of_occupied in Hi.
  pose proof (nonempty_at_lt _ _ Hi) as Hlt.
  pose proof (width_ge _ _ Hr) as Hw.
  specialize (Hzero i ltac:(lia)). unfold column_count in Hzero.
  apply nil_length_inv in Hzero.
  eapply (filter_nil_not_elem_of _ _ r Hzero); [|done].
  by apply Is_true_true.
Qed.

(** The secondary heuristics never raise, and they come back empty-handed
    only on a grid that has no filled cell. *)
Lemma fallback_columns_run table :
  ∃ cols, fallback_columns (width table) table = Ok cols
    ∧ (cols = [] → all_blank table).
Proof.
  unfold fallback_columns.
  destruct (count_columns_ok (width table) table) as (usage & Hrun & Hlen & Hlook).
  { apply Forall_forall. intros r Hr. by apply width_ge. }
  rewrite Hrun. cbn [mbind result_bind].
  destruct ((filter (fun ic => meets_20 (length table) ic.2) (Py.enumerate usage)).*1)
    as [|c cs] eqn:E20.
  2:{ eexists. split; [done|]. done. }
  set (cols := (filter (fun ic => 0 <? ic.2) (Py.enumerate usage)).*1).
  assert (Hblank : cols = [] → all_blank table).
  { intros Hnil. apply column_count_zero_blank. intros i Hi.
    apply fmap_nil_inv in Hnil.
    destruct (column_count table i) as [|n] eqn:En; [done|]. exfalso.
    eapply (filter_nil_not_elem_of _ _ (i, S n) Hnil); [done|].
    apply list_elem_of_lookup. exists i.
    by rewrite enumerate_lookup, Hlook, En. }
  destruct (20 <? length cols) eqn:Ecap.
  - apply Nat.ltb_lt in Ecap.
    destruct (mapM_ok (fun i => match usage !! i with
                                | Some n => Ok (n, i)
                                | None => Raise IndexError
                                end) cols) as (ys & Hys & Hylen).
    { intros i Hi. unfold cols in Hi.
      apply list_elem_of_fmap in Hi as ([i' n] & -> & Hi).
      apply list_elem_of_filter in Hi as [_ Hi].
      apply list_elem_of_lookup in Hi as [k Hk].
      rewrite enumerate_lookup in Hk.
      destruct (usage !! k) as [m|] eqn:Em; [|done].
      cbn in Hk. injection Hk as <- <-. cbn. rewrite Em. eauto. }
    rewrite Hys. cbn [mbind result_bind]. eexists. split; [done|].
    intros Hnil. apply (f_equal length) in Hnil. unfold sort_pairs_reverse in Hnil.
    rewrite length_fmap, length_take, length_sort_by in Hnil.
    cbn [length] in Hnil. lia.
  - eexists. split; [done|]. exact Hblank.
Qed.


Lemma width_zero_blank table : width table = 0 → all_blank table.
Proof.
  intros Hw. apply Forall_forall. intros r Hr.
  pose proof (width_ge _ _ Hr) as Hlen.
  assert (length r = 0) as Hr0 by lia.
  apply nil_length_inv in Hr0. by subst.
Qed.

Lemma clean_table_unfold table :
  table ≠ [] →
  _clean_table table
  = '(header_idx, cols_to_keep) ← _find_table_structure table;
    match drop header_idx table with
    | [] => Ok table
    | _ :: _ =>
      match cols_to_keep with
      | Some (c :: cs) => Ok (keep_columns (c :: cs) (drop header_idx table))
      | _ =>
        max_cols ← py_max (length <$> drop header_idx table);
        if max_cols =? 0 then Ok (drop header_idx table) else
        cols_to_keep ← fallback_columns max_cols (drop header_idx table);
        Ok (keep_columns cols_to_keep (drop header_idx table))
      end
    end.
Proof. by destruct table. Qed.

(** The three ways out of [_clean_table]: the empty grid, the slice from
    the header on as it is (on a slice without any filled cell), and the
    projection of the slice on a non-empty list of columns. *)
Lemma clean_table_run table :
  ∃ h cols, _find_table_structure table = Ok (h, cols)
    ∧ ((table = [] ∧ _clean_table table = Ok [])
       ∨ (table ≠ [] ∧ h < length table
          ∧ (cols = None ∨ cols = Some [])
          ∧ all_blank (drop h table)
          ∧ _clean_table table = Ok (drop h table))
       ∨ (table ≠ [] ∧ h < length table
          ∧ ∃ kept, kept ≠ []
              ∧ _clean_table table = Ok (project_row kept <$> drop h table))).
Proof.
  destruct (find_table_structure_total table) as (h & cols & Hrun & Hh).
  exists h, cols. split; [done|].
  destruct (decide (table = [])) as [->|Hne]; [by left|]. right.
  specialize (Hh Hne).
  rewrite (clean_table_unfold table Hne), Hrun. cbn [mbind result_bind].
  destruct (drop h table) as [|d ds] eqn:Edrop.
  { apply (f_equal length) in Edrop. rewrite length_drop in Edrop.
    cbn [length] in Edrop. lia. }
  assert (Hfallback :
    (cols = None ∨ cols = Some []) →
    (all_blank (d :: ds) ∧
     (max_cols ← py_max (length <$> d :: ds);
      if max_cols =? 0 then Ok (d :: ds) else
      cols_to_keep ← fallback_columns max_cols (d :: ds);
      Ok (keep_columns cols_to_keep (d :: ds))) = Ok (d :: ds))
    ∨ ∃ kept, kept ≠ [] ∧
        (max_cols ← py_max (length <$> d :: ds);
         if max_cols =? 0 then Ok (d :: ds) else
         cols_to_keep ← fallback_columns max_cols (d :: ds);
         Ok (keep_columns cols_to_keep (d :: ds))) = Ok (project_row kept <$> d :: ds)).
  { intros _. rewrite fmap_cons, py_max_ok, <- fmap_cons. cbn [mbind result_bind].
    fold (width (d :: ds)).
    destruct (width (d :: ds) =? 0) eqn:Ew.
    - left. apply Nat.eqb_eq in Ew. split; [by apply width_zero_blank|done].
    - destruct (fallback_columns_run (d :: ds)) as (kept & -> & Hblank).
      cbn [mbind result_bind]. destruct kept as [|k ks].
      + left. split; [by apply Hblank|done].
      + right. by exists (k :: ks). }
  destruct cols as [[|c cs]|].
  - destruct Hfallback as [[Hb ->]|(kept & Hk & ->)]; [by right|..].
    + left. split; [done|]. split; [done|]. split; [by right|]. done.
    + right. split; [done|]. split; [done|]. by exists kept.
  - right. split; [done|]. split; [done|]. by exists (c :: cs).
  - destruct Hfallback as [[Hb ->]|(kept & Hk & ->)]; [by left|..].
    + left. split; [done|]. split; [done|]. split; [by left|]. done.
    + right. split; [done|]. split; [done|]. by exists kept.
Qed.

End cleaner.

Lemma project_row_id (r : row) : project_row (seq 0 (length r)) r = r.
Proof.
  unfold project_row. apply list_eq. intros i. rewrite list_lookup_fmap.
  destruct (decide (i < length r)) as [Hlt|Hge].
  - rewrite lookup_seq_lt by done. cbn.
    destruct (lookup_lt_is_Some_2 r i Hlt) as [c ->]. done.
  - rewrite lookup_seq_ge by lia. cbn. symmetry. apply lookup_ge_None. lia.
Qed.

Lemma width_uniform (table : grid) (n : nat) :
  table ≠ [] → Forall (fun r => length r = n) table → width table = n.
Proof.
  unfold width. intros Hne Hall. destruct table as [|r table]; [done|]. clear Hne.
  induction table as [|r' table IH] in r, Hall |- *.
  - apply Forall_cons in Hall as [Hr _]. cbn. lia.
  - apply Forall_cons in Hall as [Hr Hall]. specialize (IH _ Hall).
    apply Forall_cons in Hall as [Hr' _]. cbn in *. lia.
Qed.

(** ** Uniform grids *)

Section uniform.

Implicit Types (table : grid) (r : row) (cols : list nat).

Lemma remove_dups_NoDup {A} `{EqDecision A} (l : list A) :
  NoDup l → remove_dups l = l.
Proof.
  induction 1 as [|x l Hx Hl IH]; [done|].
  cbn. destruct (decide_rel elem_of x l); [done|]. by rewrite IH.
Qed.

Lemma sort_by_filter_seq (Q : nat → Prop) `{∀ i, Decision (Q i)} (a m : nat) :
  sort_by Nat.leb (filter Q (seq a m)) = filter Q (seq a m).
Proof.
  revert a. induction m as [|m IH]; intros a; [done|].
  cbn [seq]. rewrite filter_cons. destruct (decide (Q a)); [|apply IH].
  unfold sort_by in *. cbn [foldr]. rewrite IH.
  destruct (filter Q (seq (S a) m)) as [|y l] eqn:E; [done|].
  cbn [insert_by].
  assert (Hy : y ∈ filter Q (seq (S a) m)) by (rewrite E; left).
  apply list_elem_of_filter in Hy as [_ Hy]. apply elem_of_seq in Hy.
  rewrite (proj2 (Nat.leb_le a y)) by lia. done.
Qed.

(** [sorted(set(l))] leaves an increasing list of indices as it is. *)
Lemma sorted_set_filter_seq (Q : nat → Prop) `{∀ i, Decision (Q i)} (m : nat) :
  sorted_set (filter Q (seq 0 m)) = filter Q (seq 0 m).
Proof.
  unfold sorted_set. rewrite remove_dups_NoDup.
  - apply sort_by_filter_seq.
  - apply NoDup_filter, NoDup_seq.
Qed.

(** The indices of the entries of [l] that pass a test on the values. *)
Lemma filter_enumerate {A} (P : nat * A → Prop) `{∀ ix, Decision (P ix)}
    (g : nat → Prop) `{∀ i, Decision (g i)} (l : list A) :
  (∀ i x, l !! i = Some x → P (i, x) ↔ g i) →
  (filter P (Py.enumerate l)).*1 = filter g (seq 0 (length l)).
Proof.
  induction l as [|x l IH] using rev_ind; intros Hg; [done|].
  rewrite enumerate_snoc, length_app. cbn [length].
  rewrite Nat.add_1_r, seq_S, !filter_app, fmap_app. cbn [Nat.add]. f_equal.
  - apply IH. intros i y Hi. apply Hg. by rewrite lookup_app_l by by eapply lookup_lt_Some.
  - rewrite !filter_cons, !filter_nil.
    specialize (Hg (length l) x (list_lookup_middle _ _ _ _ eq_refl)).
    destruct (decide (P (length l, x))) as [HP|HP], (decide (g (length l))) as [Hgl|Hgl];
      [done|tauto|tauto|done].
Qed.

Lemma filter_seq_member (Q : nat → Prop) `{∀ i, Decision (Q i)} (m w : nat) :
  m ≤ w →
  filter (fun i => i ∈ filter Q (seq 0 m)) (seq 0 w) = filter Q (seq 0 m).
Proof.
  intros Hmw. replace w with (m + (w - m)) by lia.
  rewrite seq_app, filter_app. cbn [Nat.add].
  assert (filter (fun i => i ∈ filter Q (seq 0 m)) (seq m (w - m)) = []) as ->.
  { apply elem_of_nil_inv. intros i Hi.
    apply list_elem_of_filter in Hi as [Hin Hi].
    apply list_elem_of_filter in Hin as [_ Hin].
    apply elem_of_seq in Hi, Hin. lia. }
  rewrite app_nil_r. apply filter_ext_in. intros i Hi.
  rewrite list_elem_of_filter. tauto.
Qed.

(** The header loop adds nothing when every filled header cell sits in a
    column that is kept already. *)
Lemma add_header_columns_noop with_usage r cols :
  (∀ i, nonempty_at r i = true → i ∈ cols) →
  add_header_columns with_usage r cols = cols.
Proof.
  intros Hin. unfold add_header_columns.
  assert (Hall : Forall (fun ic : nat * cell => cell_non_empty ic.2 = true → ic.1 ∈ cols)
                        (Py.enumerate r)).
  { apply Forall_forall. intros [i c] Hic Hc. cbn in *. apply Hin.
    apply list_elem_of_lookup in Hic as [k Hk]. rewrite enumerate_lookup in Hk.
    destruct (r !! k) as [c'|] eqn:Ek; [|done]. cbn in Hk. injection Hk as <- <-.
    unfold nonempty_at. by rewrite Ek. }
  induction Hall as [|[i c] l Hic _ IH]; [done|].
  cbn [foldl fst snd] in *. destruct (cell_non_empty c) eqn:Ec; [|exact IH].
  rewrite bool_decide_eq_true_2 by by apply Hic. cbn. exact IH.
Qed.

Lemma column_count_uniform (rows : list row) cols i :
  Forall (fun r => occupied r = cols) rows →
  column_count rows i = if decide (i ∈ cols) then length rows else 0.
Proof.
  intros Hall. unfold column_count.
  induction Hall as [|r rows Hr _ IH]; [by destruct (decide (i ∈ cols))|].
  rewrite filter_cons. cbn [length].
  destruct (decide (i ∈ cols)) as [Hi|Hi].
  - rewrite decide_True; [cbn; by rewrite IH|].
    apply Is_true_true, elem_of_occupied. by rewrite Hr.
  - rewrite decide_False; [done|].
    intros Hn. apply Hi. rewrite <- Hr. by apply elem_of_occupied, Is_true_true.
Qed.

(** C1 fails as it stands: with two occupied columns in a grid four
    columns wide, the under-retention guard keeps three columns. *)
Lemma uniform_grid_guard_widens :
  let table : grid := [[Some "a"; Some "b"; Some ""; Some ""];
                       [Some "1"; Some "2"; Some ""; Some ""]] in
  2 ≤ length table
  ∧ Forall (fun r => _get_non_empty_indices r = [0; 1]) table
  ∧ 2 ≤ length [0; 1]
  ∧ _find_table_structure table = Ok (0, Some [0; 1; 3])
  ∧ _find_table_structure table ≠ Ok (0, Some [0; 1]).
Proof.
  cbn zeta. split; [cbn; lia|]. split; [by repeat constructor|].
  split; [cbn; lia|]. split; [reflexivity|]. discriminate.
Qed.

End uniform.

(** C1, amended. For every grid of two rows or more whose rows all have
    the same occupied column indices, two or more of them, and which has
    three occupied columns or more or is at most three columns wide,
    [_find_table_structure] returns the header index 0 and exactly those
    column indices. *)
Theorem uniform_grid_structure (table : grid) (cols : list nat) :
  2 ≤ length table →
  Forall (fun r => _get_non_empty_indices r = cols) table →
  2 ≤ length cols →
  3 ≤ length cols ∨ width table ≤ 3 →
  _find_table_structure table = Ok (0, Some cols).
Proof.
  intros Hlen Hall Hcols Hguard.
  assert (Hocc : Forall (fun r => occupied r = cols) table).
  { eapply Forall_impl; [exact Hall|]. intros r <-.
    symmetry. apply get_non_empty_indices_occupied. }
  assert (Hcount : ∀ r, r ∈ table → _count_non_empty_cells r = length cols).
  { intros r Hr. rewrite Forall_forall in Hocc.
    by rewrite count_non_empty_cells_occupied, (Hocc r Hr). }
  destruct table as [|r0 rest] eqn:Et; [cbn in Hlen; lia|]. rewrite <- Et in *.
  assert (Hr0 : r0 ∈ table) by (rewrite Et; left).
  set (counts := dense_counts (row_profiles table)).
  assert (Hcounts : counts ≠ []).
  { unfold counts. rewrite dense_counts_profiles. intros E.
    eapply (filter_nil_not_elem_of _ _ (length cols) E); [done|].
    rewrite <- (Hcount r0 Hr0). by apply list_elem_of_fmap_2. }
  assert (Htarget : target_col_count counts = length cols).
  { pose proof (target_col_count_in counts Hcounts) as Hin.
    unfold counts in Hin at 2. rewrite dense_counts_profiles in Hin.
    apply list_elem_of_filter in Hin as [_ Hin].
    apply list_elem_of_fmap in Hin as (r & -> & Hr). by apply Hcount. }
  assert (Hh : find_header (target_col_count counts) (row_profiles table) = 0).
  { rewrite Htarget.
    assert (Hm : meets_half (length cols) (_count_non_empty_cells r0) = true).
    { apply meets_half_spec. rewrite (Hcount r0 Hr0). lia. }
    destruct (find_header_first _ table r0 Hr0 Hm) as (r & _ & _ & Hfirst).
    destruct (find_header (length cols) (row_profiles table)) as [|h]; [done|].
    rewrite (Hfirst 0 r0) in Hm; [done|lia|by rewrite Et]. }
  pose proof (find_table_structure_run table) as Hrun. cbn zeta in Hrun.
  fold counts in Hrun. rewrite Hh in Hrun.
  destruct Hrun as [[H _]|[(_ & H & _)|[(_ & _ & H & _)|(_ & _ & _ & usage & Hulen & Hlook & ->)]]];
    [lia|done|lia|].
  f_equal. f_equal. f_equal.
  assert (Hrest : Forall (fun r => occupied r = cols) (drop 1 table)).
  { apply Forall_forall. intros r Hr. rewrite Forall_forall in Hocc.
    apply Hocc. by eapply subseteq_drop. }
  assert (Hcols_eq : cols = filter (fun i => nonempty_at r0 i) (seq 0 (length r0))).
  { rewrite Forall_forall in Hocc. by rewrite <- (Hocc r0 Hr0). }
  assert (Hr0w : length r0 ≤ width table) by by apply width_ge.
  assert (Hkeep : (filter (fun iu => meets_15 (length table - 1) iu.2)
                          (Py.enumerate usage)).*1 = cols).
  { etrans.
    { apply (filter_enumerate _ (fun i => i ∈ cols)). cbn [snd].
      intros i u Hi. pose proof (lookup_lt_Some _ _ _ Hi) as Hlt.
      rewrite Hulen in Hlt. rewrite (Hlook i Hlt) in Hi. injection Hi as <-.
      rewrite (column_count_uniform _ cols i Hrest), length_drop.
      unfold meets_15. destruct (decide (i ∈ cols)) as [Hin|Hin].
      + split; [done|]. intros _. apply Is_true_true, andb_true_iff.
        split; [apply Nat.leb_le|apply Nat.leb_le]; lia.
      + split; [|done]. intros Hm. apply Is_true_true in Hm. cbn in Hm. done. }
    rewrite Hulen, Hcols_eq. by apply filter_seq_member. }
  unfold detect_columns. rewrite Hkeep.
  assert (Hheader : default [] (table !! 0) = r0) by by rewrite Et.
  rewrite Hheader.
  rewrite add_header_columns_noop.
  2:{ intros i Hi. rewrite Hcols_eq. by apply elem_of_occupied. }
  assert ((length cols <? 3) && (3 <? width table) = false) as ->.
  { apply andb_false_iff. destruct Hguard; [left; apply Nat.ltb_ge|right; apply Nat.ltb_ge]; lia. }
  rewrite Hcols_eq. apply sorted_set_filter_seq.
Qed.

Lemma uniform_grid_structure_witness :
  _find_table_structure
    [[Some "ID"; Some "Name"]; [Some "1"; Some "Ann"]; [Some "2"; Some "Bob"]]
  = Ok (0, Some [0; 1]).
Proof.
  apply uniform_grid_structure.
  - cbn. lia.
  - by repeat constructor.
  - cbn. lia.
  - right. cbn. lia.
Defined.

(** ** The merger *)

Section merger.

Implicit Types (df : DataFrame) (frames : list DataFrame) (seen : list string).

(** C5 fails as it stands when the header has a blank cell: the blank
    name is filtered out, so the schema is not the uniquified header.  The
    grid of one row of two absent cells is cleaned to itself; its header is
    uniquified to the names [""] and ["_1"], and only ["_1"] is kept. *)
Lemma header_only_drops_blank_names :
  _clean_table [[None; None]] = Ok [[None; None]]
  ∧ _make_unique_columns [None; None] = [""; "_1"]
  ∧ (∃ c, c ∈ _make_unique_columns [None; None] ∧ non_blank_name c = true)
  ∧ dataset_of_cleaned [[None; None]] = Ok (Some (Frame ["_1"] []))
  ∧ dataset_of_cleaned [[None; None]]
    ≠ Ok (Some (Frame (_make_unique_columns [None; None]) [])).
Proof.
  split; [reflexivity|]. split; [reflexivity|].
  split; [exists "_1"; split; [right; left|reflexivity]|].
  split; [reflexivity|]. discriminate.
Qed.

Lemma foldl_add_label seen (l : list string) :
  foldl pd.add_label seen l = seen ++ filter (fun c => c ∉ seen) (first_seen l).
Proof.
  revert seen. induction l as [|c l IH]; intros seen.
  - cbn. by rewrite app_nil_r.
  - cbn [foldl first_seen]. rewrite IH. unfold pd.add_label.
    rewrite filter_cons, list_filter_filter.
    destruct (decide (c ∈ seen)) as [Hc|Hc].
    + rewrite bool_decide_eq_true_2 by done. rewrite decide_False by tauto.
      f_equal. apply list_filter_iff. intros y. split; [|tauto].
      intros Hy. split; [done|]. by intros ->.
    + rewrite bool_decide_eq_false_2 by done. rewrite decide_True by done.
      rewrite <- app_assoc. cbn. do 2 f_equal.
      apply list_filter_iff. intros y. rewrite elem_of_app, list_elem_of_singleton.
      tauto.
Qed.

Lemma filter_all {A} (P : A → Prop) `{∀ x, Decision (P x)} (l : list A) :
  (∀ x, x ∈ l → P x) → filter P l = l.
Proof.
  induction l as [|x l IH]; intros Hall; [done|].
  rewrite filter_cons_True by (apply Hall; left).
  f_equal. apply IH. intros y Hy. apply Hall. by right.
Qed.

Lemma first_seen_NoDup (l : list string) : NoDup l → first_seen l = l.
Proof.
  induction 1 as [|x l Hx _ IH]; [done|]. cbn. rewrite IH. f_equal.
  apply filter_all. intros y Hy ->. contradiction.
Qed.

Lemma union_columns_snoc frames df :
  pd.union_columns (frames ++ [df])
  = foldl pd.add_label (pd.union_columns frames) (columns df).
Proof. unfold pd.union_columns. by rewrite foldl_snoc. Qed.

Lemma union_columns_flat frames :
  pd.union_columns frames = foldl pd.add_label [] (mjoin (columns <$> frames)).
Proof.
  induction frames as [|df frames IH] using rev_ind; [done|].
  rewrite union_columns_snoc, IH, fmap_app, join_app, foldl_app.
  cbn. by rewrite app_nil_r.
Qed.


End merger.

(** C5, amended. For every cleaned table made of a single header row with
    one non-blank name or more after uniquification, the merger appends a
    dataset without data rows whose schema is the list of the non-blank
    uniquified names; it neither raises nor discards the table. *)
Theorem header_only_dataset (header : row) :
  let names := filter (fun c => non_blank_name c) (_make_unique_columns header) in
  (∃ c, c ∈ _make_unique_columns header ∧ non_blank_name c = true) →
  dataset_of_cleaned [header] = Ok (Some (Frame names []))
  ∧ ∀ table : grid,
      _clean_table table = Ok [header] →
      table_contribution table = Some (Frame names []).
Proof.
  intros names (c & Hc & Hnb).
  assert (Hnames : names ≠ []).
  { intros E. eapply (filter_nil_not_elem_of _ _ c E); [|done]. by apply Is_true_true. }
  assert (Hds : dataset_of_cleaned [header] = Ok (Some (Frame names []))).
  { cbn [dataset_of_cleaned]. fold names. by destruct names. }
  split; [done|].
  intros table Hclean. unfold table_contribution.
  destruct table as [|r table]; [discriminate Hclean|].
  rewrite Hclean. cbn [mbind result_bind]. by rewrite Hds.
Qed.

Lemma header_only_dataset_witness :
  dataset_of_cleaned [[None; None]] = Ok (Some (Frame ["_1"] []))
  ∧ table_contribution [[None; None]] = Some (Frame ["_1"] []).
Proof.
  destruct (header_only_dataset [None; None]) as [H1 H2].
  - exists "_1". split; [right; left|reflexivity].
  - split; [exact H1|]. apply H2. reflexivity.
Defined.

(** C6 fails on datasets the merger builds itself.  The header
    [Name, Name, Name_1] is uniquified to [Name, Name_1, Name_1], so its
    table contributes a dataset with a repeated label.  Merged with a
    table of other columns, [pd.concat] cannot align it and raises: there
    is no merged schema.  Merged alone, the schema keeps the repeated
    label, which is not the union of the column names, and the loop over
    the merged columns raises. *)
Theorem merge_schema_repeated_label :
  let t1 := [[Some "Name"; Some "Name"; Some "Name_1"]; [Some "1"; Some "2"; Some "3"]] in
  let t2 := [[Some "A"; Some "B"]; [Some "x"; Some "y"]] in
  let d1 := Frame ["Name"; "Name_1"; "Name_1"] [[Some "1"; Some "2"; Some "3"]] in
  let d2 := Frame ["A"; "B"] [[Some "x"; Some "y"]] in
  table_contribution t1 = Some d1
  ∧ table_contribution t2 = Some d2
  ∧ merge_tables [d1; d2] = Raise InvalidIndexError
  ∧ merged_dataframe [d1; d2] = Raise InvalidIndexError
  ∧ merge_tables [d1] = Ok d1
  ∧ columns d1 ≠ first_seen (columns d1)
  ∧ merged_dataframe [d1] = Raise ValueError.
Proof. by vm_compute. Qed.




(** ** Text formatting *)

Section format_text.

Lemma lstrip_starts_clean s : starts_clean (Py.lstrip s).
Proof.
  induction s as [|c s IH]; [done|].
  cbn [Py.lstrip]. destruct (Py.isspace c) eqn:E; [done|]. exact E.
Qed.

Lemma rstrip_head c s :
  Py.isspace c = false → ∃ r, Py.rstrip (String c s) = String c r.
Proof.
  intros Hc. cbn [Py.rstrip]. rewrite Hc. destruct (Py.rstrip s); eauto.
Qed.

Lemma strip_starts_clean s : starts_clean (Py.strip s).
Proof.
  unfold Py.strip. pose proof (lstrip_starts_clean s) as H.
  destruct (Py.lstrip s) as [|c r]; [done|].
  destruct (rstrip_head c r H) as [r' ->]. exact H.
Qed.

Lemma head_clean_snoc lines line :
  head_clean lines → lines ≠ [] → head_clean (lines ++ [line]).
Proof. by destruct lines. Qed.

Lemma reflow_step_head_clean lines line :
  head_clean lines → head_clean (reflow_step lines line).
Proof.
  intros H. unfold reflow_step.
  destruct (Py.truthy (Py.strip line)) eqn:E.
  - destruct lines as [|l ls]; [|done].
    split; [done|apply strip_starts_clean].
  - destruct (last lines) as [previous|] eqn:El; [|done].
    destruct (Py.truthy previous); [|done].
    apply head_clean_snoc; [done|]. by intros ->.
Qed.

Lemma reflow_head_clean lines acc :
  head_clean acc → head_clean (foldl reflow_step acc lines).
Proof.
  revert acc. induction lines as [|l lines IH]; intros acc H; [done|].
  cbn [foldl]. by apply IH, reflow_step_head_clean.
Qed.

Lemma join_lines_head c r lines :
  ∃ rest, join_lines (String c r :: lines) = String c rest.
Proof. destruct lines; cbn; eauto. Qed.

Lemma isspace_newline : Py.isspace newline = true.
Proof. reflexivity. Qed.

Lemma first_line_not_blank c rest :
  Py.isspace c = false →
  Py.truthy (Py.strip (hd EmptyString (split_lines (String c rest)))) = true.
Proof.
  intros Hc. cbn [split_lines].
  assert (is_newline c = false) as ->.
  { apply bool_decide_eq_false. intros ->. by rewrite isspace_newline in Hc. }
  assert (∃ l, hd EmptyString
                 match split_lines rest with
                 | [] => [String c EmptyString]
                 | line :: lines => String c line :: lines
                 end = String c l) as [l ->].
  { destruct (split_lines rest); cbn; eauto. }
  unfold Py.strip. cbn [Py.lstrip]. rewrite Hc.
  by destruct (rstrip_head c l Hc) as [r' ->].
Qed.

End format_text.

(** C10. For every text, page number and total page count the string
    returned by [_format_text] is empty or starts with a character that is
    neither a newline nor any other white space, so that its first line is
    not blank: the re-flow drops every leading blank line, the newline that
    opens the page header included. *)
Theorem format_text_no_leading_blank (text : string) (page_num total_pages : Z) :
  let out := _format_text text page_num total_pages in
  out = EmptyString
  ∨ ∃ c rest, out = String c rest
      ∧ is_newline c = false
      ∧ Py.isspace c = false
      ∧ Py.truthy (Py.strip (hd EmptyString (split_lines out))) = true.
Proof.
  cbn zeta. unfold _format_text.
  destruct (negb (Py.truthy text)); [by left|].
  match goal with |- context [foldl reflow_step [] ?ls] =>
    pose proof (reflow_head_clean ls [] I) as H;
    destruct (foldl reflow_step [] ls) as [|line lines]
  end; [by left|].
  right. destruct H as [Ht Hc]. destruct line as [|c r]; [done|].
  destruct (join_lines_head c r lines) as [rest ->].
  exists c, rest. repeat split; [| exact Hc | by apply first_line_not_blank].
  apply bool_decide_eq_false. intros ->. cbn [starts_clean] in Hc.
  by rewrite isspace_newline in Hc.
Qed.

(** * Further properties of the code *)

(** ** Row profiles *)

Section profiles.

Implicit Types (r : row).

Lemma StronglySorted_seq (a n : nat) : StronglySorted lt (seq a n).
Proof.
  revert a. induction n as [|n IH]; intros a; [constructor|].
  cbn. constructor; [apply IH|].
  apply Forall_forall. intros i Hi. apply elem_of_seq in Hi. lia.
Qed.

Lemma StronglySorted_filter {A} (R : A → A → Prop) (P : A → Prop)
    `{∀ x, Decision (P x)} (l : list A) :
  StronglySorted R l → StronglySorted R (filter P l).
Proof.
  induction 1 as [|x l Hl IH Hx]; [constructor|].
  rewrite filter_cons. destruct (decide (P x)); [|done].
  constructor; [done|].
  apply Forall_forall. intros y Hy. apply list_elem_of_filter in Hy as [_ Hy].
  rewrite Forall_forall in Hx. by apply Hx.
Qed.

End profiles.

(** X1. The count of a row profile is the number of its indices, and is
    never more than the length of the row. *)
Theorem count_is_number_of_indices (r : row) :
  _count_non_empty_cells r = length (_get_non_empty_indices r)
  ∧ _count_non_empty_cells r ≤ length r.
Proof.
  split.
  - by rewrite count_non_empty_cells_occupied, get_non_empty_indices_occupied.
  - apply count_non_empty_cells_le.
Qed.

(** X2. The indices of a row profile are exactly the positions of the
    cells that are present and not blank, each listed once, in increasing
    order. *)
Theorem non_empty_indices_exact (r : row) :
  (∀ i, i ∈ _get_non_empty_indices r
        ↔ ∃ s, r !! i = Some (Some s) ∧ Py.strip s ≠ EmptyString)
  ∧ StronglySorted lt (_get_non_empty_indices r).
Proof.
  rewrite get_non_empty_indices_occupied. split.
  - intros i. rewrite elem_of_occupied. unfold nonempty_at, cell_non_empty.
    split.
    + intros H. destruct (r !! i) as [[s|]|]; [|done|done].
      exists s. split; [done|]. by destruct (Py.strip s).
    + intros (s & -> & Hs). by destruct (Py.strip s).
  - apply StronglySorted_filter, StronglySorted_seq.
Qed.

(** ** The structure detector, beyond the header index *)

Section detector_columns.

Implicit Types (table : grid) (r : row) (cols : list nat).

Lemma elem_of_insert_by {A} (le : A → A → bool) (x y : A) (l : list A) :
  y ∈ insert_by le x l ↔ y = x ∨ y ∈ l.
Proof.
  induction l as [|z l IH]; cbn.
  - rewrite list_elem_of_singleton, elem_of_nil. tauto.
  - destruct (le x z); rewrite !elem_of_cons; [tauto|]. rewrite IH. tauto.
Qed.

Lemma elem_of_sort_by {A} (le : A → A → bool) (y : A) (l : list A) :
  y ∈ sort_by le l ↔ y ∈ l.
Proof.
  unfold sort_by. induction l as [|x l IH]; [done|].
  cbn. rewrite elem_of_insert_by, IH, elem_of_cons. tauto.
Qed.

Lemma insert_by_sorted (x : nat) (l : list nat) :
  StronglySorted lt l → x ∉ l → StronglySorted lt (insert_by Nat.leb x l).
Proof.
  induction 1 as [|y l Hl IH Hy]; intros Hx; cbn.
  - repeat constructor.
  - apply not_elem_of_cons in Hx as [Hxy Hx].
    destruct (x <=? y) eqn:E.
    + apply Nat.leb_le in E. constructor; [by constructor|].
      constructor; [lia|]. eapply Forall_impl; [exact Hy|]. cbn. lia.
    + apply Nat.leb_gt in E. constructor; [by apply IH|].
      apply Forall_forall. intros z Hz. apply elem_of_insert_by in Hz as [->|Hz]; [done|].
      rewrite Forall_forall in Hy. by apply Hy.
Qed.

Lemma sort_by_sorted (l : list nat) :
  NoDup l → StronglySorted lt (sort_by Nat.leb l).
Proof.
  unfold sort_by. induction 1 as [|x l Hx Hl IH]; [constructor|].
  cbn. apply insert_by_sorted; [done|]. by rewrite (elem_of_sort_by Nat.leb x l).
Qed.

(** [sorted(set(l))] is strictly increasing and has the elements of [l]. *)
Lemma sorted_set_sorted (l : list nat) : StronglySorted lt (sorted_set l).
Proof. apply sort_by_sorted, NoDup_remove_dups. Qed.

Lemma elem_of_sorted_set (l : list nat) (i : nat) : i ∈ sorted_set l ↔ i ∈ l.
Proof. unfold sorted_set. by rewrite elem_of_sort_by, elem_of_remove_dups. Qed.

Lemma elem_of_filter_enumerate {A} (P : nat * A → Prop) `{∀ ix, Decision (P ix)}
    (l : list A) (i : nat) :
  i ∈ (filter P (Py.enumerate l)).*1 ↔ ∃ x, l !! i = Some x ∧ P (i, x).
Proof.
  rewrite list_elem_of_fmap. split.
  - intros ([j x] & -> & Hjx). apply list_elem_of_filter in Hjx as [HP Hjx].
    apply list_elem_of_lookup in Hjx as [k Hk]. rewrite enumerate_lookup in Hk.
    destruct (l !! k) as [y|] eqn:Ek; [|done]. cbn in Hk. injection Hk as <- <-.
    cbn. eauto.
  - intros (x & Hx & HP). exists (i, x). split; [done|].
    apply list_elem_of_filter. split; [done|].
    apply list_elem_of_lookup. exists i. by rewrite enumerate_lookup, Hx.
Qed.

(** What the header loops add, and what they leave. *)
Lemma add_header_columns_snoc with_usage r (c : cell) cols :
  add_header_columns with_usage (r ++ [c]) cols
  = let cols' := add_header_columns with_usage r cols in
    if cell_non_empty c && negb (bool_decide (length r ∈ cols')) then
      match with_usage with
      | Some col_usage =>
          match col_usage !! length r with
          | Some u => if 0 <? u then cols' ++ [length r] else cols'
          | None => cols'
          end
      | None => cols' ++ [length r]
      end
    else cols'.
Proof. unfold add_header_columns. by rewrite enumerate_snoc, foldl_snoc. Qed.

Lemma add_header_columns_elem with_usage r cols i :
  i ∈ add_header_columns with_usage r cols → i ∈ cols ∨ nonempty_at r i = true.
Proof.
  induction r as [|c r IH] using rev_ind; [by left|].
  rewrite add_header_columns_snoc. cbn zeta.
  assert (Hold : i ∈ add_header_columns with_usage r cols →
                 i ∈ cols ∨ nonempty_at (r ++ [c]) i = true).
  { intros H. destruct (IH H) as [?|Hn]; [by left|right].
    rewrite nonempty_at_snoc. destruct (decide (i = length r)) as [->|]; [|done].
    by rewrite nonempty_at_ge in Hn. }
  assert (Hnew : cell_non_empty c = true →
                 i ∈ add_header_columns with_usage r cols ++ [length r] →
                 i ∈ cols ∨ nonempty_at (r ++ [c]) i = true).
  { intros Hc H. apply elem_of_app in H as [H|H]; [by apply Hold|].
    apply list_elem_of_singleton in H as ->. right.
    rewrite nonempty_at_snoc. by rewrite decide_True. }
  destruct (cell_non_empty c) eqn:Ec; [|done].
  destruct (negb _); [|done]. cbn [andb].
  destruct with_usage as [col_usage|]; [|by apply Hnew].
  destruct (col_usage !! length r) as [u|]; [|done].
  destruct (0 <? u); [by apply Hnew|done].
Qed.

Lemma add_header_columns_keeps with_usage r cols i :
  i ∈ cols → i ∈ add_header_columns with_usage r cols.
Proof.
  intros Hi. induction r as [|c r IH] using rev_ind; [done|].
  rewrite add_header_columns_snoc. cbn zeta.
  destruct (cell_non_empty c && negb _); [|done].
  destruct with_usage as [col_usage|]; [|apply elem_of_app; by left].
  destruct (col_usage !! length r) as [u|]; [|done].
  destruct (0 <? u); [apply elem_of_app; by left|done].
Qed.

Lemma add_header_columns_adds with_usage r cols i :
  nonempty_at r i = true →
  match with_usage with
  | Some col_usage => ∃ u, col_usage !! i = Some u ∧ 0 < u
  | None => True
  end →
  i ∈ add_header_columns with_usage r cols.
Proof.
  intros Hn Hu. induction r as [|c r IH] using rev_ind; [done|].
  rewrite add_header_columns_snoc. cbn zeta.
  rewrite nonempty_at_snoc in Hn.
  set (cols' := add_header_columns with_usage r cols) in *.
  destruct (decide (i = length r)) as [->|Hne].
  - rewrite Hn. destruct (decide (length r ∈ cols')) as [Hin|Hin].
    + by rewrite bool_decide_eq_true_2.
    + rewrite bool_decide_eq_false_2 by done. cbn [andb negb].
      destruct with_usage as [col_usage|].
      * destruct Hu as (u & -> & Hu). rewrite (proj2 (Nat.ltb_lt 0 u)) by done.
        apply elem_of_app. right. by left.
      * apply elem_of_app. right. by left.
  - specialize (IH Hn).
    destruct (cell_non_empty c && negb _); [|done].
    destruct with_usage as [col_usage|]; [|apply elem_of_app; by left].
    destruct (col_usage !! length r) as [u|]; [|done].
    destruct (0 <? u); [apply elem_of_app; by left|done].
Qed.

Lemma top_columns_elem (max_cols : nat) (col_usage : list nat) (i : nat) :
  i ∈ top_columns max_cols col_usage → i < length col_usage.
Proof.
  unfold top_columns, sort_pairs_reverse. intros H.
  apply list_elem_of_fmap in H as ([u j] & -> & H). cbn.
  apply elem_of_take in H as (k & H & _). apply list_elem_of_lookup_2 in H.
  apply elem_of_sort_by in H.
  apply list_elem_of_fmap in H as ([j' u'] & [= -> ->] & H).
  apply list_elem_of_lookup in H as [k' Hk']. rewrite enumerate_lookup in Hk'.
  destruct (col_usage !! k') as [y|] eqn:Ek; [|done]. cbn in Hk'. injection Hk' as <- <-.
  by eapply lookup_lt_Some.
Qed.

Lemma detect_columns_bound (n max_cols : nat) (col_usage : list nat) r (i : nat) :
  length col_usage = max_cols → length r ≤ max_cols →
  i ∈ detect_columns n max_cols col_usage r → i < max_cols.
Proof.
  intros Hlen Hr Hi. unfold detect_columns in Hi.
  rewrite elem_of_sorted_set in Hi.
  assert (Hfirst : ∀ j, j ∈ add_header_columns (Some col_usage) r
                      (filter (fun iu => meets_15 n iu.2) (Py.enumerate col_usage)).*1 →
                    j < max_cols).
  { intros j Hj. apply add_header_columns_elem in Hj as [Hj|Hj].
    - apply elem_of_filter_enumerate in Hj as (u & Hu & _).
      apply lookup_lt_Some in Hu. lia.
    - apply nonempty_at_lt in Hj. lia. }
  destruct ((length _ <? 3) && (3 <? max_cols)); [|by apply Hfirst].
  apply add_header_columns_elem in Hi as [Hi|Hi].
  - apply top_columns_elem in Hi. lia.
  - apply nonempty_at_lt in Hi. lia.
Qed.

Lemma detect_columns_header (n max_cols : nat) (col_usage : list nat) r (i u : nat) :
  nonempty_at r i = true → col_usage !! i = Some u → 0 < u →
  i ∈ detect_columns n max_cols col_usage r.
Proof.
  intros Hn Hu Hpos. unfold detect_columns. apply elem_of_sorted_set.
  destruct ((length _ <? 3) && (3 <? max_cols)).
  - by apply add_header_columns_adds.
  - apply add_header_columns_adds; [done|]. eauto.
Qed.

End detector_columns.

(** X3. A grid of fewer than two rows, or one in which no row has two
    filled cells, gets the header index 0 and no column filter. *)
Theorem structure_without_signal (table : grid) :
  length table < 2 ∨ Forall (fun r => _count_non_empty_cells r < 2) table →
  _find_table_structure table = Ok (0, None).
Proof.
  intros Hsmall.
  pose proof (find_table_structure_run table) as Hrun. cbn zeta in Hrun.
  destruct Hrun as [[_ H]|[(_ & _ & H)|[(Hlen & Hd & _)|(Hlen & Hd & _)]]]; [done|done|..];
    exfalso; (destruct Hsmall as [Hs|Hs]; [lia|]); apply Hd;
    rewrite dense_counts_profiles; apply elem_of_nil_inv; intros n Hn;
    apply list_elem_of_filter in Hn as [Hn Hin];
    apply list_elem_of_fmap in Hin as (r & -> & Hr);
    rewrite Forall_forall in Hs; specialize (Hs r Hr); lia.
Qed.

Lemma structure_without_signal_witness :
  _find_table_structure [[Some "Total"; None]; [Some "12"; Some " "]] = Ok (0, None).
Proof.
  apply structure_without_signal. right.
  repeat constructor; vm_compute; lia.
Defined.

(** X4. The detector never raises (no counter is indexed out of range and
    no maximum is taken of an empty list), and on a grid that is not empty
    the header index it returns is the index of a row. *)
Theorem structure_header_in_range (table : grid) :
  (∀ e, _find_table_structure table ≠ Raise e)
  ∧ ∀ h cols, _find_table_structure table = Ok (h, cols) → table ≠ [] → h < length table.
Proof.
  destruct (find_table_structure_total table) as (h & cols & Hrun & Hh).
  split.
  - intros e. by rewrite Hrun.
  - intros h' cols' H. rewrite Hrun in H. injection H as <- <-. exact Hh.
Qed.

Lemma structure_header_in_range_witness :
  1 < length ([[None; None]; [Some "ID"; Some "Name"]; [Some "1"; Some "Ann"]] : grid).
Proof.
  apply (proj2 (structure_header_in_range
                  [[None; None]; [Some "ID"; Some "Name"]; [Some "1"; Some "Ann"]])
               1 (Some [0; 1])).
  - reflexivity.
  - discriminate.
Defined.

(** X5. The columns the detector retains are strictly increasing, hence
    free of duplicates, and each of them is a column of the grid. *)
Theorem structure_columns_sorted_in_range (table : grid) (h : nat) (cols : list nat) :
  _find_table_structure table = Ok (h, Some cols) →
  StronglySorted lt cols ∧ Forall (fun i => i < width table) cols.
Proof.
  intros Hs.
  pose proof (find_table_structure_run table) as Hrun. cbn zeta in Hrun.
  destruct Hrun as [[_ H]|[(_ & _ & H)|[(_ & _ & _ & H)|(_ & _ & Hh & u & Hlen & _ & H)]]];
    [congruence..|].
  rewrite H in Hs. injection Hs as <- <-. split.
  - apply sorted_set_sorted.
  - apply Forall_forall. intros i Hi.
    eapply detect_columns_bound; [exact Hlen| |exact Hi].
    destruct (table !! _) as [r|] eqn:Er; [|cbn; lia].
    cbn. apply width_ge. by eapply list_elem_of_lookup_2.
Qed.

Lemma structure_columns_sorted_in_range_witness :
  StronglySorted lt [0; 1; 3] ∧ Forall (fun i => i < 4) [0; 1; 3].
Proof.
  apply (structure_columns_sorted_in_range
           [[Some "a"; Some "b"; Some ""; Some ""]; [Some "1"; Some "2"; Some ""; Some ""]] 0).
  reflexivity.
Defined.

(** X6. A column that is named in the header row and filled in some row
    below it is always retained, however sparse it is. *)
Theorem structure_keeps_named_columns (table : grid) (h : nat) (cols : list nat)
    (header_row : row) (i : nat) :
  _find_table_structure table = Ok (h, Some cols) →
  table !! h = Some header_row →
  nonempty_at header_row i = true →
  (∃ r, r ∈ drop (S h) table ∧ nonempty_at r i = true) →
  i ∈ cols.
Proof.
  intros Hs Hh Hn (r & Hr & Hrn).
  pose proof (find_table_structure_run table) as Hrun. cbn zeta in Hrun.
  destruct Hrun as [[_ H]|[(_ & _ & H)|[(_ & _ & _ & H)|(_ & _ & _ & u & Hlen & Hlook & H)]]];
    [congruence..|].
  rewrite H in Hs. injection Hs as Hh' <-. rewrite Hh' in *. rewrite Hh. cbn.
  assert (Hi : i < width table).
  { apply nonempty_at_lt in Hn. apply list_elem_of_lookup_2 in Hh.
    pose proof (width_ge _ _ Hh). lia. }
  eapply detect_columns_header; [done|by apply Hlook|].
  unfold column_count.
  destruct (filter _ (drop (S h) table)) as [|x l] eqn:E; [|cbn; lia].
  exfalso. eapply (filter_nil_not_elem_of _ _ r E); [|done]. by apply Is_true_true.
Qed.

Lemma structure_keeps_named_columns_witness :
  2 ∈ [0; 1; 2].
Proof.
  apply (structure_keeps_named_columns
           ([Some "ID"; Some "Name"; Some "Note"] ::
            replicate 9 [Some "1"; Some "Ann"; None] ++ [[Some "1"; Some "Ann"; Some "late"]])
           0 _ [Some "ID"; Some "Name"; Some "Note"] 2).
  - reflexivity.
  - reflexivity.
  - reflexivity.
  - exists [Some "1"; Some "Ann"; Some "late"]. split; [|reflexivity].
    cbn. do 9 right. left.
Defined.

(** ** The cleaner, beyond the row count *)

Section cleaner_rows.

Implicit Types (table : grid) (r : row).

Lemma project_row_cells (kept : list nat) r :
  Forall (fun c => c = None ∨ c ∈ r) (project_row kept r).
Proof.
  unfold project_row. apply Forall_fmap, Forall_forall. intros j _. cbn.
  destruct (r !! j) as [c|] eqn:E; [right|by left].
  cbn. by eapply list_elem_of_lookup_2.
Qed.

Lemma sorted_range (l : list nat) (a n : nat) :
  StronglySorted lt l → (∀ i, i ∈ l ↔ a ≤ i < a + n) → l = seq a n.
Proof.
  revert l a. induction n as [|n IH]; intros l a Hs Hin.
  - apply elem_of_nil_inv. intros i Hi. apply Hin in Hi. lia.
  - destruct l as [|x l].
    { assert (a ∈ @nil nat) as H by (apply Hin; lia). by apply elem_of_nil in H. }
    apply StronglySorted_inv in Hs as [Hs Hx]. rewrite Forall_forall in Hx.
    assert (x = a) as ->.
    { assert (a ∈ x :: l) as Ha by (apply Hin; lia).
      assert (a ≤ x) by (apply (Hin x); left).
      apply elem_of_cons in Ha as [->|Ha]; [done|]. specialize (Hx a Ha). lia. }
    cbn. f_equal. apply IH; [done|]. intros i. split.
    + intros Hi. pose proof (Hx i Hi). assert (i ∈ a :: l) as H' by by right.
      apply Hin in H'. lia.
    + intros Hi. assert (i ∈ a :: l) as H' by (apply Hin; lia).
      apply elem_of_cons in H' as [->|H']; [lia|done].
Qed.

Lemma full_grid_nonempty_at w table r i :
  full_grid w table → r ∈ table → i < w → nonempty_at r i = true.
Proof.
  intros Hfull Hr Hi. unfold full_grid in Hfull. rewrite Forall_forall in Hfull.
  destruct (Hfull r Hr) as [Hlen Hcells]. unfold nonempty_at.
  destruct (lookup_lt_is_Some_2 r i ltac:(lia)) as [c Hc]. rewrite Hc.
  rewrite Forall_forall in Hcells. apply Hcells. by eapply list_elem_of_lookup_2.
Qed.

Lemma full_grid_occupied w table r :
  full_grid w table → r ∈ table → occupied r = seq 0 w.
Proof.
  intros Hfull Hr. unfold occupied.
  assert (length r = w) as ->.
  { unfold full_grid in Hfull. rewrite Forall_forall in Hfull. by apply Hfull. }
  apply filter_all. intros i Hi. apply elem_of_seq in Hi.
  apply Is_true_true. eapply full_grid_nonempty_at; [done..|lia].
Qed.

Lemma full_grid_structure w table :
  2 ≤ length table → 2 ≤ w → full_grid w table →
  _find_table_structure table = Ok (0, Some (seq 0 w)).
Proof.
  intros Hlen Hw Hfull.
  assert (Hcount : ∀ r, r ∈ table → _count_non_empty_cells r = w).
  { intros r Hr.
    by rewrite count_non_empty_cells_occupied, (full_grid_occupied w table r), length_seq. }
  assert (Hwidth : width table = w).
  { apply width_uniform; [intros ->; cbn in Hlen; lia|].
    eapply Forall_impl; [exact Hfull|]. by intros r [? _]. }
  destruct table as [|r0 rest] eqn:Et; [cbn in Hlen; lia|]. rewrite <- Et in *.
  assert (Hr0 : r0 ∈ table) by (rewrite Et; left).
  set (counts := dense_counts (row_profiles table)).
  assert (Hcounts : counts ≠ []).
  { unfold counts. rewrite dense_counts_profiles. intros E.
    eapply (filter_nil_not_elem_of _ _ w E); [done|].
    rewrite <- (Hcount r0 Hr0). by apply list_elem_of_fmap_2. }
  assert (Htarget : target_col_count counts = w).
  { pose proof (target_col_count_in counts Hcounts) as Hin.
    unfold counts in Hin at 2. rewrite dense_counts_profiles in Hin.
    apply list_elem_of_filter in Hin as [_ Hin].
    apply list_elem_of_fmap in Hin as (r & -> & Hr). by apply Hcount. }
  assert (Hh : find_header (target_col_count counts) (row_profiles table) = 0).
  { rewrite Htarget.
    assert (Hm : meets_half w (_count_non_empty_cells r0) = true).
    { apply meets_half_spec. rewrite (Hcount r0 Hr0). lia. }
    destruct (find_header_first _ table r0 Hr0 Hm) as (r & _ & _ & Hfirst).
    destruct (find_header w (row_profiles table)) as [|h]; [done|].
    rewrite (Hfirst 0 r0) in Hm; [done|lia|by rewrite Et]. }
  pose proof (find_table_structure_run table) as Hrun. cbn zeta in Hrun.
  fold counts in Hrun. rewrite Hh in Hrun.
  destruct Hrun as [[H _]|[(_ & H & _)|[(_ & _ & H & _)|(_ & _ & _ & usage & Hulen & Hlook & ->)]]];
    [lia|done|lia|].
  do 3 f_equal. rewrite Hwidth in *.
  assert (Hheader : default [] (table !! 0) = r0) by by rewrite Et.
  rewrite Hheader.
  apply sorted_range.
  - unfold detect_columns. apply sorted_set_sorted.
  - intros i. split.
    + intros Hi. split; [lia|]. cbn.
      eapply detect_columns_bound; [exact Hulen| |exact Hi].
      unfold full_grid in Hfull. rewrite Forall_forall in Hfull.
      destruct (Hfull r0 Hr0) as [-> _]. done.
    + intros [_ Hi]. cbn in Hi.
      eapply detect_columns_header.
      * by eapply full_grid_nonempty_at.
      * by apply Hlook.
      * unfold column_count.
        destruct rest as [|r1 rest']; [rewrite Et in Hlen; cbn in Hlen; lia|].
        rewrite Et. cbn [drop]. rewrite filter_cons_True; [cbn; lia|].
        apply Is_true_true. eapply full_grid_nonempty_at; [exact Hfull| |done].
        rewrite Et. right. left.
Qed.

Lemma clean_table_full w table :
  2 ≤ length table → 2 ≤ w → full_grid w table → _clean_table table = Ok table.
Proof.
  intros Hlen Hw Hfull.
  assert (Hne : table ≠ []) by (intros ->; cbn in Hlen; lia).
  rewrite (clean_table_unfold table Hne), (full_grid_structure w table) by done.
  cbn [mbind result_bind]. rewrite drop_0.
  destruct table as [|r0 rest] eqn:Et; [done|]. rewrite <- Et in *.
  destruct w as [|w']; [lia|]. cbn [seq]. f_equal.
  change (0 :: seq 1 w') with (seq 0 (S w')). unfold keep_columns. cbn [seq].
  change (0 :: seq 1 w') with (seq 0 (S w')).
  rewrite <- (list_fmap_id table) at 2.
  apply Forall_fmap_ext_1. eapply Forall_impl; [exact Hfull|].
  intros r [<- _]. apply project_row_id.
Qed.

End cleaner_rows.

(** X7. The cleaned table has one row for each row of the grid from the
    header on, in the same order, and cleaning never invents content:
    every cell of a cleaned row is a cell of the row it comes from, or is
    absent. *)
Theorem clean_table_cells_from_input (table cleaned : grid) :
  _clean_table table = Ok cleaned →
  ∃ h, length cleaned = length table - h
    ∧ ∀ k r', cleaned !! k = Some r' →
        ∃ r, table !! (h + k) = Some r ∧ Forall (fun c => c = None ∨ c ∈ r) r'.
Proof.
  intros Hclean.
  destruct (clean_table_run table) as (h & cols & _ & Hcases).
  destruct Hcases as [[-> Hc]|[(_ & Hh & _ & _ & Hc)|(_ & Hh & kept & _ & Hc)]];
    rewrite Hc in Hclean; injection Hclean as <-.
  - exists 0. split; [done|]. intros k r' Hk. done.
  - exists h. split; [by rewrite length_drop|]. intros k r' Hk.
    rewrite lookup_drop in Hk. exists r'. split; [done|].
    apply Forall_forall. intros c Hc'. by right.
  - exists h. split; [by rewrite length_fmap, length_drop|]. intros k r' Hk.
    rewrite list_lookup_fmap, lookup_drop in Hk.
    destruct (table !! (h + k)) as [r|]; [|done]. cbn in Hk. injection Hk as <-.
    exists r. split; [done|]. apply project_row_cells.
Qed.

Lemma clean_table_cells_from_input_witness :
  ∃ h, length [[Some "a"; Some "b"; Some ""]; [Some "1"; Some "2"; Some ""]]
       = length [[Some "a"; Some "b"; Some ""; Some ""];
                 [Some "1"; Some "2"; Some ""; Some ""]] - h
    ∧ ∀ k r', [[Some "a"; Some "b"; Some ""]; [Some "1"; Some "2"; Some ""]] !! k = Some r' →
        ∃ r, [[Some "a"; Some "b"; Some ""; Some ""];
              [Some "1"; Some "2"; Some ""; Some ""]] !! (h + k) = Some r
             ∧ Forall (fun c => c = None ∨ c ∈ r) r'.
Proof.
  apply (clean_table_cells_from_input
           [[Some "a"; Some "b"; Some ""; Some ""]; [Some "1"; Some "2"; Some ""; Some ""]]).
  reflexivity.
Defined.

(** X8. A cleaned table is rectangular: unless it has no filled cell at
    all (then the rows are returned as they are), all its rows have the
    same length, and that length is not 0. *)
Theorem clean_table_rectangular (table cleaned : grid) :
  _clean_table table = Ok cleaned →
  all_blank cleaned ∨ ∃ n, 0 < n ∧ Forall (fun r => length r = n) cleaned.
Proof.
  intros Hclean.
  destruct (clean_table_run table) as (h & cols & _ & Hcases).
  destruct Hcases as [[-> Hc]|[(_ & _ & _ & Hb & Hc)|(_ & _ & kept & Hk & Hc)]];
    rewrite Hc in Hclean; injection Hclean as <-.
  - left. constructor.
  - by left.
  - right. exists (length kept). split; [destruct kept; [done|cbn; lia]|].
    apply Forall_fmap, Forall_forall. intros r _. cbn.
    unfold project_row. by rewrite length_fmap.
Qed.

Lemma clean_table_rectangular_witness :
  all_blank [[Some "a"; Some "b"; Some ""]; [Some "1"; Some "2"; Some ""]]
  ∨ ∃ n, 0 < n ∧ Forall (fun r => length r = n)
                    [[Some "a"; Some "b"; Some ""]; [Some "1"; Some "2"; Some ""]].
Proof.
  apply (clean_table_rectangular
           [[Some "a"; Some "b"; Some ""; Some ""]; [Some "1"; Some "2"; Some ""; Some ""]]).
  reflexivity.
Defined.

(** X9. A grid that needs no cleaning is left as it is: with two rows or
    more, all of the same length of two or more, and every cell filled,
    the detector takes the first row as header and keeps every column,
    and [_clean_table] returns the grid unchanged. *)
Theorem clean_table_identity_on_full_grid (w : nat) (table : grid) :
  2 ≤ length table → 2 ≤ w → full_grid w table →
  _find_table_structure table = Ok (0, Some (seq 0 w))
  ∧ _clean_table table = Ok table.
Proof.
  intros Hlen Hw Hfull. split.
  - by apply full_grid_structure.
  - by eapply clean_table_full.
Qed.

Lemma clean_table_identity_on_full_grid_witness :
  _find_table_structure [[Some "ID"; Some "Name"]; [Some "1"; Some "Ann"]; [Some "2"; Some "Bob"]]
  = Ok (0, Some [0; 1])
  ∧ _clean_table [[Some "ID"; Some "Name"]; [Some "1"; Some "Ann"]; [Some "2"; Some "Bob"]]
    = Ok [[Some "ID"; Some "Name"]; [Some "1"; Some "Ann"]; [Some "2"; Some "Bob"]].
Proof.
  apply (clean_table_identity_on_full_grid 2).
  - cbn. lia.
  - lia.
  - repeat constructor.
Defined.

(** ** What the cleaner keeps, and the tables it leaves alone *)

Section cleaner_content.

Implicit Types (table slice body : grid) (r header : row).

Lemma column_count_pos (rows : list row) (i : nat) :
  0 < column_count rows i ↔ ∃ r, r ∈ rows ∧ nonempty_at r i = true.
Proof.
  unfold column_count. split.
  - intros Hpos.
    destruct (filter (fun r => nonempty_at r i) rows) as [|r l] eqn:E; [cbn in Hpos; lia|].
    assert (Hr : r ∈ filter (fun r => nonempty_at r i) rows) by (rewrite E; left).
    apply list_elem_of_filter in Hr as [Hn Hr]. exists r. split; [done|].
    by apply Is_true_true.
  - intros (r & Hr & Hn).
    destruct (filter (fun r => nonempty_at r i) rows) as [|x l] eqn:E; [|cbn; lia].
    exfalso. eapply (filter_nil_not_elem_of _ _ r E); [|done]. by apply Is_true_true.
Qed.


(** A kept column with a filled cell leaves a filled cell in the
    projection. *)
Lemma project_keeps_cell (kept : list nat) slice (j : nat) :
  j ∈ kept → 0 < column_count slice j → ¬ all_blank (project_row kept <$> slice).
Proof.
  intros Hj Hpos Hb. apply column_count_pos in Hpos as (r & Hr & Hn).
  apply list_elem_of_lookup in Hj as [k Hk].
  unfold all_blank in Hb. rewrite Forall_forall in Hb.
  assert (Hin : project_row kept r ∈ project_row kept <$> slice)
    by by apply list_elem_of_fmap_2.
  specialize (Hb _ Hin).
  assert (Hocc : k ∈ occupied (project_row kept r)).
  { apply elem_of_occupied. unfold nonempty_at, project_row.
    rewrite list_lookup_fmap, Hk. cbn.
    unfold nonempty_at in Hn. by destruct (r !! j) as [c|]. }
  rewrite Hb in Hocc. by apply not_elem_of_nil in Hocc.
Qed.

Lemma mapM_elem {A B} (f : A → result B) (l : list A) (ys : list B) (y : B) :
  mapM f l = Ok ys → y ∈ ys → ∃ x, x ∈ l ∧ f x = Ok y.
Proof.
  revert ys. induction l as [|x l IH]; intros ys.
  - intros [= <-] Hy. by apply not_elem_of_nil in Hy.
  - cbn. destruct (f x) as [y0|e] eqn:Ex; [|done]. cbn.
    destruct (mapM f l) as [ys0|e] eqn:El; [|done]. cbn.
    intros [= <-] Hy. apply elem_of_cons in Hy as [->|Hy].
    + exists x. split; [left|done].
    + destruct (IH ys0 eq_refl Hy) as (x' & Hx' & Hfx'). exists x'. split; [by right|done].
Qed.

(** Every column the secondary heuristics keep has a filled cell. *)
Lemma fallback_columns_filled table (cols : list nat) (j : nat) :
  fallback_columns (width table) table = Ok cols → j ∈ cols → 0 < column_count table j.
Proof.
  unfold fallback_columns.
  destruct (count_columns_ok (width table) table) as (usage & Hrun & Hlen & Hlook).
  { apply Forall_forall. intros r Hr. by apply width_ge. }
  rewrite Hrun. cbn [mbind result_bind].
  assert (Hpos : ∀ i u, usage !! i = Some u → 0 < u → 0 < column_count table i).
  { intros i u Hi Hu. pose proof (lookup_lt_Some _ _ _ Hi) as Hlt. rewrite Hlen in Hlt.
    rewrite (Hlook i Hlt) in Hi. by injection Hi as ->. }
  destruct ((filter (fun ic => meets_20 (length table) ic.2) (Py.enumerate usage)).*1)
    as [|c cs] eqn:E20.
  2:{ intros [= <-] Hj. rewrite <- E20 in Hj.
    apply elem_of_filter_enumerate in Hj as (u & Hu & Hm). cbn in Hm.
    apply (Hpos j u Hu). apply Is_true_true in Hm. unfold meets_20 in Hm.
    apply andb_true_iff in Hm as [Hm _]. apply Nat.leb_le in Hm. lia. }
  set (cols0 := (filter (fun ic => 0 <? ic.2) (Py.enumerate usage)).*1).
  assert (Hcols0 : ∀ i, i ∈ cols0 → ∃ u, usage !! i = Some u ∧ 0 < u).
  { intros i Hi. unfold cols0 in Hi.
    apply elem_of_filter_enumerate in Hi as (u & Hu & Hm). cbn in Hm.
    exists u. split; [done|]. apply Is_true_true in Hm. destruct u; [done|lia]. }
  destruct (20 <? length cols0).
  - destruct (mapM _ cols0) as [ys|e] eqn:Hys; [|done]. cbn [mbind result_bind].
    intros [= <-] Hj.
    apply list_elem_of_fmap in Hj as ([n j'] & -> & Hj). cbn.
    apply elem_of_take in Hj as (k & Hj & _). apply list_elem_of_lookup_2 in Hj.
    unfold sort_pairs_reverse in Hj. rewrite elem_of_sort_by in Hj.
    destruct (mapM_elem _ _ _ _ Hys Hj) as (i & Hi & Hfi).
    destruct (Hcols0 i Hi) as (u & Hu & Hupos). rewrite Hu in Hfi.
    injection Hfi as <- <-. by apply (Hpos i u).
  - intros [= <-] Hj. destruct (Hcols0 j Hj) as (u & Hu & Hupos). by apply (Hpos j u).
Qed.

(** When some row has two filled cells or more, so has the header row. *)
Lemma header_row_dense table :
  dense_counts (row_profiles table) ≠ [] →
  ∃ r, table !! find_header (target_col_count (dense_counts (row_profiles table)))
                            (row_profiles table) = Some r
    ∧ 2 ≤ _count_non_empty_cells r.
Proof.
  intros Hcounts.
  set (counts := dense_counts (row_profiles table)) in *.
  pose proof (target_col_count_in counts Hcounts) as Hin.
  unfold counts in Hin at 2. rewrite dense_counts_profiles in Hin.
  apply list_elem_of_filter in Hin as [Ht Hin].
  apply list_elem_of_fmap in Hin as (r0 & Hr0 & Hr0in).
  assert (Hm : meets_half (target_col_count counts) (_count_non_empty_cells r0) = true).
  { apply meets_half_spec. rewrite <- Hr0. lia. }
  destruct (find_header_first _ table r0 Hr0in Hm) as (r & Hr & Hmr & _).
  exists r. split; [done|]. apply meets_half_spec in Hmr. lia.
Qed.

(** One of the columns the detector keeps is filled in the header row or
    below it. *)
Lemma detect_columns_filled (n max_cols : nat) (col_usage : list nat) r :
  occupied r ≠ [] → detect_columns n max_cols col_usage r ≠ [] →
  ∃ j, j ∈ detect_columns n max_cols col_usage r
    ∧ (nonempty_at r j = true ∨ ∃ u, col_usage !! j = Some u ∧ 0 < u).
Proof.
  intros Hocc Hne. unfold detect_columns in *.
  destruct ((length _ <? 3) && (3 <? max_cols)).
  - destruct (occupied r) as [|i l] eqn:E; [done|].
    assert (Hi : nonempty_at r i = true).
    { apply elem_of_occupied. rewrite E. left. }
    exists i. split; [|by left]. apply elem_of_sorted_set.
    by apply add_header_columns_adds.
  - set (cols := add_header_columns _ _ _) in *.
    destruct (sorted_set cols) as [|j l] eqn:E; [done|].
    assert (Hj : j ∈ sorted_set cols) by (rewrite E; left).
    exists j. split; [left|].
    rewrite elem_of_sorted_set in Hj. unfold cols in Hj.
    apply add_header_columns_elem in Hj as [Hj|Hj]; [right|by left].
    apply elem_of_filter_enumerate in Hj as (u & Hu & Hm). cbn in Hm.
    exists u. split; [done|]. apply Is_true_true in Hm. unfold meets_15 in Hm.
    apply andb_true_iff in Hm as [Hm _]. apply Nat.leb_le in Hm. lia.
Qed.

(** Cleaning never discards all data: a grid with a filled cell is
    cleaned to a table with a filled cell. *)
Lemma clean_table_keeps_data table (cleaned : grid) :
  _clean_table table = Ok cleaned → ¬ all_blank table → ¬ all_blank cleaned.
Proof.
  intros Hclean Hnb.
  assert (Hne : table ≠ []).
  { intros ->. apply Hnb. constructor. }
  rewrite (clean_table_unfold table Hne) in Hclean.
  assert (Hfallback : ∀ h',
    ¬ all_blank (drop h' table) →
    match drop h' table with
    | [] => Ok table
    | _ :: _ =>
        max_cols ← py_max (length <$> drop h' table);
        if max_cols =? 0 then Ok (drop h' table) else
        cols_to_keep ← fallback_columns max_cols (drop h' table);
        Ok (keep_columns cols_to_keep (drop h' table))
    end = Ok cleaned →
    ¬ all_blank cleaned).
  { intros h' Hs. destruct (drop h' table) as [|d ds] eqn:Ed.
    { exfalso. apply Hs. constructor. }
    rewrite fmap_cons, py_max_ok, <- fmap_cons. cbn [mbind result_bind].
    fold (width (d :: ds)).
    destruct (width (d :: ds) =? 0) eqn:Ew.
    { apply Nat.eqb_eq in Ew. exfalso. by apply Hs, width_zero_blank. }
    destruct (fallback_columns_run (d :: ds)) as (kept & Hfb & Hblank).
    rewrite Hfb. cbn [mbind result_bind]. destruct kept as [|k ks].
    { exfalso. by apply Hs, Hblank. }
    cbn [keep_columns]. intros Heq.
    assert (cleaned = project_row (k :: ks) <$> d :: ds) as -> by congruence.
    apply (project_keeps_cell _ _ k); [left|].
    eapply fallback_columns_filled; [exact Hfb|left]. }
  assert (Hheader : dense_counts (row_profiles table) ≠ [] →
    ∃ r, table !! find_header (target_col_count (dense_counts (row_profiles table)))
                              (row_profiles table) = Some r
      ∧ occupied r ≠ []
      ∧ ¬ all_blank (drop (find_header (target_col_count (dense_counts (row_profiles table)))
                                        (row_profiles table)) table)).
  { intros Hd. destruct (header_row_dense table Hd) as (r & Hr & H2).
    exists r. split; [done|].
    assert (Hocc : occupied r ≠ []).
    { intros E. rewrite count_non_empty_cells_occupied, E in H2. cbn in H2. lia. }
    split; [done|]. intros Hb. apply Hocc.
    unfold all_blank in Hb. rewrite Forall_forall in Hb. apply Hb.
    apply list_elem_of_lookup. exists 0. by rewrite lookup_drop, Nat.add_0_r. }
  pose proof (find_table_structure_run table) as Hrun. cbn zeta in Hrun.
  set (h := find_header (target_col_count (dense_counts (row_profiles table)))
                        (row_profiles table)) in *.
  destruct Hrun as [[_ H]|[(_ & _ & H)|[(_ & Hd & _ & H)|(_ & Hd & Hh & usage & Hlen & Hlook & H)]]].
  - rewrite H in Hclean. apply (Hfallback 0); [by rewrite drop_0|exact Hclean].
  - rewrite H in Hclean. apply (Hfallback 0); [by rewrite drop_0|exact Hclean].
  - rewrite H in Hclean. destruct (Hheader Hd) as (r & _ & _ & Hs).
    apply (Hfallback h); [exact Hs|exact Hclean].
  - destruct (Hheader Hd) as (r & Hr & Hocc & Hs).
    rewrite Hr in H. change (default [] (Some r)) with r in H.
    rewrite H in Hclean. cbn [mbind result_bind] in Hclean.
    destruct (detect_columns (length table - S h) (width table) usage r)
      as [|c cs] eqn:Ecols.
    { apply (Hfallback h); [exact Hs|exact Hclean]. }
    destruct (detect_columns_filled (length table - S h) (width table) usage r Hocc)
      as (j & Hj & Hfilled); [by rewrite Ecols|].
    rewrite Ecols in Hj.
    rewrite (drop_S _ _ _ Hr) in Hclean. cbn [keep_columns] in Hclean.
    assert (cleaned = project_row (c :: cs) <$> r :: drop (S h) table) as -> by congruence.
    apply (project_keeps_cell _ _ j Hj). apply column_count_pos.
    destruct Hfilled as [Hn|(u & Hu & Hupos)].
    + exists r. split; [left|done].
    + pose proof (lookup_lt_Some _ _ _ Hu) as Hlt. rewrite Hlen in Hlt.
      rewrite (Hlook j Hlt) in Hu. injection Hu as <-.
      apply column_count_pos in Hupos as (r' & Hr' & Hn').
      exists r'. split; [by right|done].
Qed.





End cleaner_content.

(** C8. For every non-empty grid [_clean_table] returns, without raising,
    a table that is not empty: it has one row for each row of the grid
    from the header index on, and when the grid has a filled cell, so has
    the table, so that cleaning never discards all data.  When the
    detector gives no column filter (or an empty one) and the secondary
    heuristics keep no column either, what it returns is the grid from
    the header index on, unchanged. *)
Theorem clean_table_never_empty (table : grid) :
  table ≠ [] →
  ∃ h cols cleaned,
    _find_table_structure table = Ok (h, cols)
    ∧ _clean_table table = Ok cleaned
    ∧ cleaned ≠ []
    ∧ length cleaned = length table - h
    ∧ (¬ all_blank table → ¬ all_blank cleaned)
    ∧ ((cols = None ∨ cols = Some []) →
       (width (drop h table) = 0
        ∨ fallback_columns (width (drop h table)) (drop h table) = Ok []) →
       cleaned = drop h table).
Proof.
  intros Hne.
  destruct (clean_table_run table) as (h & cols & Hrun & Hclean).
  assert (Hsliced : h < length table → drop h table ≠ []).
  { intros Hh E. apply (f_equal length) in E. rewrite length_drop in E.
    cbn [length] in E. lia. }
  assert (Hlast : ∀ cleaned, _clean_table table = Ok cleaned → h < length table →
            (cols = None ∨ cols = Some []) →
            (width (drop h table) = 0
             ∨ fallback_columns (width (drop h table)) (drop h table) = Ok []) →
            cleaned = drop h table).
  { intros cleaned Hc Hh Hcols Hfb.
    rewrite (clean_table_unfold table Hne), Hrun in Hc. cbn [mbind result_bind] in Hc.
    specialize (Hsliced Hh). unfold width in Hfb.
    destruct (drop h table) as [|d ds]; [done|].
    rewrite fmap_cons, py_max_ok, <- fmap_cons in Hc. cbn [mbind result_bind] in Hc.
    assert (Hc' : (if max_list (length <$> d :: ds) =? 0 then Ok (d :: ds)
                   else cols_to_keep ← fallback_columns (max_list (length <$> d :: ds)) (d :: ds);
                        Ok (keep_columns cols_to_keep (d :: ds))) = Ok cleaned).
    { by destruct Hcols as [->| ->]. }
    clear Hc. destruct (max_list (length <$> d :: ds) =? 0) eqn:Ew.
    - congruence.
    - destruct Hfb as [Hw|Hfb]; [apply Nat.eqb_neq in Ew; done|].
      rewrite Hfb in Hc'. cbn in Hc'. congruence. }
  destruct Hclean as [[-> _]|[(_ & Hh & Hcols & _ & Hc)|(_ & Hh & kept & Hk & Hc)]]; [done|..].
  - exists h, cols, (drop h table). split; [done|]. split; [done|].
    split; [by apply Hsliced|]. split; [by rewrite length_drop|].
    split; [by apply clean_table_keeps_data|]. done.
  - exists h, cols, (project_row kept <$> drop h table).
    split; [done|]. split; [done|]. split.
    { intros E. apply fmap_nil_inv in E. by apply Hsliced. }
    split; [by rewrite length_fmap, length_drop|].
    split; [by apply clean_table_keeps_data|].
    intros Hcols Hfb. by apply Hlast.
Qed.

Lemma clean_table_never_empty_witness :
  ∃ cleaned,
    _clean_table [[Some ""; Some "Page 1"; Some ""];
                  [Some "ID"; Some ""; Some "Name"];
                  [Some "1"; Some ""; Some "Ann"]] = Ok cleaned
    ∧ length cleaned = 2
    ∧ ¬ all_blank cleaned.
Proof.
  destruct (clean_table_never_empty [[Some ""; Some "Page 1"; Some ""];
                                     [Some "ID"; Some ""; Some "Name"];
                                     [Some "1"; Some ""; Some "Ann"]])
    as (h & cols & cleaned & Hs & Hc & _ & Hlen & Hdata & _); [discriminate|].
  exists cleaned. split; [exact Hc|].
  vm_compute in Hs. injection Hs as <- _. split; [exact Hlen|].
  apply Hdata. intros Hb. apply Forall_inv in Hb. vm_compute in Hb. discriminate Hb.
Defined.




(** ** Column naming, beyond the suffix rule *)

Section naming.

Implicit Types (columns : list cell) (names : list string) (x y : string).

Lemma make_unique_columns_imap columns :
  _make_unique_columns columns
  = imap (suffixed_name (column_name <$> columns)) (column_name <$> columns).
Proof. apply unique_fold_invariant. Qed.

Lemma occurrences_before_first names i x :
  NoDup names → names !! i = Some x → occurrences_before names i x = 0.
Proof.
  intros Hnd Hi. unfold occurrences_before.
  assert (filter (x =.) (take i names) = []) as ->; [|done].
  apply elem_of_nil_inv. intros y Hy.
  apply list_elem_of_filter in Hy as [<- Hy].
  apply elem_of_take in Hy as (j & Hj & Hlt).
  pose proof (NoDup_lookup _ _ _ _ Hnd Hi Hj). lia.
Qed.

(** Between two occurrences of a name lies one more occurrence before the
    later one. *)
Lemma occurrences_before_lt names i j x :
  i < j → names !! i = Some x → names !! j = Some x →
  occurrences_before names i x < occurrences_before names j x.
Proof.
  intros Hij Hi Hj. unfold occurrences_before.
  pose proof (lookup_lt_Some _ _ _ Hj) as Hjlen.
  rewrite <- (take_drop i (take j names)).
  rewrite take_take, Nat.min_l by lia.
  rewrite filter_app, length_app.
  assert (drop i (take j names) !! 0 = Some x) as H0.
  { rewrite lookup_drop, Nat.add_0_r, lookup_take_lt by done. done. }
  destruct (drop i (take j names)) as [|y l]; [done|].
  cbn in H0. injection H0 as ->.
  rewrite filter_cons_True by done. cbn. lia.
Qed.

Lemma append_no_underscore x s :
  has_underscore (x +:+ "_" +:+ s) = true.
Proof.
  induction x as [|c x IH]; [reflexivity|].
  change (has_underscore (String c (x +:+ "_" +:+ s)) = true).
  cbn [has_underscore]. rewrite IH. apply orb_true_r.
Qed.

Lemma append_underscore_inj x y s t :
  has_underscore x = false → has_underscore y = false →
  x +:+ "_" +:+ s = y +:+ "_" +:+ t → x = y ∧ s = t.
Proof.
  revert y. induction x as [|c x IH]; intros [|d y] Hx Hy E.
  - cbv [String.append] in E. by injection E as ->.
  - change (String "_" s = String d (y +:+ "_" +:+ t)) in E.
    injection E as <- _. cbn in Hy. by rewrite bool_decide_eq_true_2 in Hy.
  - change (String c (x +:+ "_" +:+ s) = String "_" t) in E.
    injection E as -> _. cbn in Hx. by rewrite bool_decide_eq_true_2 in Hx.
  - change (String c (x +:+ "_" +:+ s) = String d (y +:+ "_" +:+ t)) in E.
    injection E as -> E. cbn in Hx, Hy.
    apply orb_false_iff in Hx as [_ Hx], Hy as [_ Hy].
    destruct (IH y Hx Hy E) as [-> ->]. done.
Qed.

Lemma to_uint_not_nil (n : nat) : Nat.to_uint n ≠ Decimal.Nil.
Proof.
  intros E. pose proof (DecimalNat.Unsigned.of_to n) as H.
  rewrite E in H. cbn in H. subst n. discriminate E.
Qed.

(** [str] of an [int] determines the [int]. *)
Lemma str_of_nat_inj (n m : nat) : Py.str_of_nat n = Py.str_of_nat m → n = m.
Proof.
  unfold Py.str_of_nat. intros E.
  apply DecimalNat.Unsigned.to_uint_inj.
  pose proof (NilZero.usu _ (to_uint_not_nil n)) as Hn.
  pose proof (NilZero.usu _ (to_uint_not_nil m)) as Hm.
  rewrite E in Hn. congruence.
Qed.

End naming.

(** X10. [_make_unique_columns] returns one name for each header cell,
    and it renames nothing when the trimmed names are distinct already. *)
Theorem make_unique_columns_distinct (columns : list cell) :
  length (_make_unique_columns columns) = length columns
  ∧ (NoDup (column_name <$> columns) →
     _make_unique_columns columns = column_name <$> columns).
Proof.
  rewrite make_unique_columns_imap. split.
  - by rewrite length_imap, length_fmap.
  - intros Hnd. set (names := column_name <$> columns) in *.
    rewrite <- (list_fmap_id names) at 3. rewrite <- imap_const.
    apply imap_ext. intros i x Hi. unfold suffixed_name.
    by rewrite occurrences_before_first.
Qed.

Lemma make_unique_columns_distinct_witness :
  _make_unique_columns [Some " ID"; None; Some "Name "] = ["ID"; ""; "Name"].
Proof.
  apply (make_unique_columns_distinct [Some " ID"; None; Some "Name "]).
  apply (bool_decide_unpack _). by vm_compute.
Defined.

(** X11. When no trimmed header name contains the character [_], the
    names returned by [_make_unique_columns] are free of duplicates. *)
Theorem make_unique_columns_no_underscore (columns : list cell) :
  Forall (fun c => has_underscore (column_name c) = false) columns →
  NoDup (_make_unique_columns columns).
Proof.
  intros Hall. rewrite make_unique_columns_imap.
  set (names := column_name <$> columns).
  assert (Hnames : ∀ i x, names !! i = Some x → has_underscore x = false).
  { intros i x Hi. unfold names in Hi. rewrite list_lookup_fmap in Hi.
    destruct (columns !! i) as [c|] eqn:Ec; [|done]. cbn in Hi. injection Hi as <-.
    rewrite Forall_forall in Hall. apply Hall. by eapply list_elem_of_lookup_2. }
  assert (Hsame : ∀ i j x, names !! i = Some x → names !! j = Some x →
            occurrences_before names i x = occurrences_before names j x → i = j).
  { intros i j x Hi Hj E. destruct (Nat.lt_trichotomy i j) as [H|[H|H]]; [|done|].
    - pose proof (occurrences_before_lt names i j x H Hi Hj). lia.
    - pose proof (occurrences_before_lt names j i x H Hj Hi). lia. }
  apply NoDup_alt. intros i j z Hi Hj.
  rewrite list_lookup_imap in Hi, Hj.
  destruct (names !! i) as [x|] eqn:Ex; [|done].
  destruct (names !! j) as [y|] eqn:Ey; [|done].
  cbn in Hi, Hj. injection Hi as Hi. injection Hj as Hj. subst z.
  pose proof (Hnames i x Ex) as Hx. pose proof (Hnames j y Ey) as Hy.
  unfold suffixed_name in Hj.
  destruct (occurrences_before names i x) as [|k] eqn:Ei,
           (occurrences_before names j y) as [|k'] eqn:Ej.
  - subst y. apply (Hsame i j x); [done..|]. by rewrite Ei, Ej.
  - subst x. by rewrite append_no_underscore in Hx.
  - subst y. by rewrite append_no_underscore in Hy.
  - apply append_underscore_inj in Hj as [Hxy Hk]; [|done..].
    apply str_of_nat_inj in Hk. rewrite <- Hxy in *.
    apply (Hsame i j y); [done..|]. rewrite Ei, Ej. done.
Qed.

Lemma make_unique_columns_no_underscore_witness :
  NoDup (_make_unique_columns [Some "Name"; Some "Total"; Some "Name"; None; None]).
Proof.
  apply make_unique_columns_no_underscore. repeat constructor.
Defined.

(** ** The merger, beyond the schema *)

Section merger_rows.

Implicit Types (df : DataFrame) (frames : list DataFrame) (r : row).

Lemma omap_lookup_seq {A} (l : list A) (a n : nat) :
  a + n ≤ length l → omap (fun j => l !! j) (seq a n) = take n (drop a l).
Proof.
  revert a. induction n as [|n IH]; intros a Hle; [done|].
  destruct (lookup_lt_is_Some_2 l a ltac:(lia)) as [x Hx].
  cbn [seq omap list_omap]. rewrite Hx, (drop_S _ _ _ Hx). cbn. f_equal.
  apply IH. lia.
Qed.

Lemma omap_lookup_all {A} (l : list A) :
  omap (fun j => l !! j) (seq 0 (length l)) = l.
Proof. rewrite omap_lookup_seq by lia. by rewrite drop_0, firstn_all. Qed.

Lemma sublist_omap {A B} (f : A → option B) (l1 l2 : list A) :
  l1 `sublist_of` l2 → omap f l1 `sublist_of` omap f l2.
Proof.
  induction 1 as [|x l1 l2 _ IH|x l1 l2 _ IH]; cbn.
  - constructor.
  - destruct (f x); [by constructor|done].
  - destruct (f x); [by constructor|done].
Qed.

Lemma select_columns_rows (js : list nat) df :
  length (data (pd.select_columns js df)) = length (data df).
Proof. cbn. by rewrite length_fmap. Qed.

Lemma select_columns_sublist (P : nat → Prop) `{∀ j, Decision (P j)} df :
  columns (pd.select_columns (filter P (seq 0 (length (columns df)))) df)
  `sublist_of` columns df.
Proof.
  cbn [pd.select_columns columns].
  pose proof (sublist_omap (fun j => columns df !! j) _ _
                (sublist_filter P (seq 0 (length (columns df))))) as Hsub.
  by rewrite omap_lookup_all in Hsub.
Qed.

Lemma select_columns_all (cols : list string) (rows : list row) :
  Forall (fun r => length r = length cols) rows →
  pd.select_columns (seq 0 (length cols)) (Frame cols rows) = Frame cols rows.
Proof.
  intros Hrows. unfold pd.select_columns. cbn in *.
  f_equal; [apply omap_lookup_all|].
  rewrite <- (list_fmap_id rows) at 2.
  apply Forall_fmap_ext_1. eapply Forall_impl; [exact Hrows|].
  intros r <-. apply project_row_id.
Qed.

Lemma elem_of_first_seen (l : list string) (c : string) : c ∈ first_seen l ↔ c ∈ l.
Proof.
  induction l as [|x l IH]; [done|].
  cbn [first_seen]. rewrite !elem_of_cons, list_elem_of_filter, IH.
  destruct (decide (c = x)); tauto.
Qed.

Lemma elem_of_union_columns frames (c : string) :
  c ∈ pd.union_columns frames ↔ ∃ df, df ∈ frames ∧ c ∈ columns df.
Proof.
  rewrite union_columns_flat, foldl_add_label. cbn.
  rewrite filter_all by (intros y _; apply not_elem_of_nil).
  rewrite elem_of_first_seen, list_elem_of_join. split.
  - intros (cs & Hc & Hcs). apply list_elem_of_fmap in Hcs as (df & -> & Hdf). eauto.
  - intros (df & Hdf & Hc). exists (columns df). split; [done|].
    by apply list_elem_of_fmap_2.
Qed.

Lemma length_reindex_row (src dst : list string) r :
  length (pd.reindex_row src dst r) = length dst.
Proof. unfold pd.reindex_row. by rewrite length_fmap. Qed.

(** A row aligned to other labels keeps each of its values under its
    label, and has a missing value under every label it did not have. *)
Lemma reindex_row_lookup (src dst : list string) r (j k : nat) (c : string) :
  NoDup src → src !! j = Some c → dst !! k = Some c →
  pd.reindex_row src dst r !! k = Some (default None (r !! j)).
Proof.
  intros Hnd Hj Hk. unfold pd.reindex_row. rewrite list_lookup_fmap, Hk. cbn.
  assert (list_find (c =.) src = Some (j, c)) as ->; [|done].
  apply list_find_Some. split; [done|]. split; [done|].
  intros j' y Hj' Hlt <-. pose proof (NoDup_lookup _ _ _ _ Hnd Hj Hj'). lia.
Qed.

Lemma reindex_row_missing (src dst : list string) r (k : nat) (c : string) :
  c ∉ src → dst !! k = Some c → pd.reindex_row src dst r !! k = Some None.
Proof.
  intros Hc Hk. unfold pd.reindex_row. rewrite list_lookup_fmap, Hk. cbn.
  assert (list_find (c =.) src = None) as ->; [|done].
  apply list_find_None, Forall_forall. by intros y Hy <-.
Qed.

Lemma concat_rows_length (dst : list string) frames :
  length (mjoin ((fun df => pd.reindex_row (columns df) dst <$> data df) <$> frames))
  = sum_list ((fun df => length (data df)) <$> frames).
Proof.
  induction frames as [|df frames IH]; [done|].
  csimpl. rewrite length_app, length_fmap. f_equal. exact IH.
Qed.

Lemma stacked_rows_length frames :
  length (mjoin (data <$> frames)) = sum_list ((fun df => length (data df)) <$> frames).
Proof.
  induction frames as [|df frames IH]; [done|].
  csimpl. rewrite length_app. f_equal. exact IH.
Qed.

Lemma NoDup_first_seen (l : list string) : NoDup (first_seen l).
Proof.
  induction l as [|x l IH]; [constructor|].
  cbn [first_seen]. constructor; [|by apply NoDup_filter].
  rewrite list_elem_of_filter. tauto.
Qed.

Lemma align_columns frames :
  columns (pd.align frames) = first_seen (mjoin (columns <$> frames)).
Proof.
  cbn. rewrite union_columns_flat, foldl_add_label. cbn.
  apply filter_all. intros y _. apply not_elem_of_nil.
Qed.

(** Frames with duplicate-free labels are always merged, by alignment. *)
Lemma concat_duplicate_free frames :
  frames ≠ [] → Forall (fun df => NoDup (columns df)) frames →
  pd.concat frames = Ok (pd.align frames).
Proof.
  intros Hne Hnd. destruct frames as [|first rest]; [done|].
  unfold pd.concat. by rewrite bool_decide_eq_true_2.
Qed.

(** The two ways in which [pd.concat] returns a frame. *)
Lemma concat_ok frames merged :
  pd.concat frames = Ok merged →
  (Forall (fun df => NoDup (columns df)) frames ∧ merged = pd.align frames)
  ∨ (∃ first rest, frames = first :: rest ∧ merged = pd.stack (columns first) frames).
Proof.
  destruct frames as [|first rest]; [done|]. unfold pd.concat.
  case_bool_decide as Hnd.
  - intros [= <-]. by left.
  - case_bool_decide; [|done]. intros [= <-]. right. by exists first, rest.
Qed.

Lemma concat_ok_rows frames merged :
  pd.concat frames = Ok merged →
  length (data merged) = sum_list ((fun df => length (data df)) <$> frames).
Proof.
  intros [[_ ->]|(first & rest & _ & ->)]%concat_ok.
  - apply concat_rows_length.
  - apply stacked_rows_length.
Qed.

(** The ways in which the end of [tables_to_dataframe] returns. *)
Lemma merged_dataframe_ok frames final :
  merged_dataframe frames = Ok final →
  (frames = [] ∧ final = Frame [] [])
  ∨ (∃ merged, frames ≠ [] ∧ merge_tables frames = Ok merged
       ∧ NoDup (columns (prune_sparse merged))
       ∧ final = drop_unnamed_sparse (drop_blank_columns (prune_sparse merged))).
Proof.
  destruct frames as [|df frames]; [intros [= <-]; by left|].
  unfold merged_dataframe.
  destruct (merge_tables (df :: frames)) as [merged|e]; [|done].
  cbn [mbind result_bind]. case_bool_decide as Hnd; [|done].
  intros [= <-]. right. by exists merged.
Qed.

Lemma merged_dataframe_duplicate_free frames :
  Forall (fun df => NoDup (columns df)) frames →
  ∃ final, merged_dataframe frames = Ok final.
Proof.
  intros Hnd. destruct frames as [|df frames]; [by eexists|].
  unfold merged_dataframe, merge_tables.
  rewrite concat_duplicate_free by done. cbn [mbind result_bind].
  rewrite bool_decide_eq_true_2; [by eexists|].
  eapply sublist_NoDup; [|apply select_columns_sublist].
  rewrite align_columns. apply NoDup_first_seen.
Qed.

End merger_rows.

(** X12. A table that needs no cleaning contributes its header and its
    rows as they are: for a grid with a header row and one data row or
    more, all of the same length of two or more and with every cell
    filled, the contributed dataset has the uniquified header as schema
    and exactly the data rows as rows. *)
Theorem table_contribution_full_grid (w : nat) (header : row) (body : grid) :
  1 ≤ length body → 2 ≤ w → full_grid w (header :: body) →
  table_contribution (header :: body)
  = Some (Frame (_make_unique_columns header) body).
Proof.
  intros Hbody Hw Hfull.
  assert (Hclean : _clean_table (header :: body) = Ok (header :: body)).
  { apply (clean_table_full w); [cbn; lia|done..]. }
  unfold table_contribution. rewrite Hclean. cbn [mbind result_bind].
  apply Forall_cons in Hfull as [[Hhlen _] Hfull].
  destruct body as [|d ds] eqn:Eb; [cbn in Hbody; lia|]. rewrite <- Eb in *.
  assert (Hne : body ≠ []) by by rewrite Eb.
  assert (Hlens : Forall (fun r => length r = w) body).
  { eapply Forall_impl; [exact Hfull|]. by intros r [? _]. }
  assert (Hnames : length (_make_unique_columns header) = w).
  { by rewrite make_unique_columns_imap, length_imap, length_fmap. }
  assert (Hsome : ∀ r j, r ∈ body → j < w → ∃ s, r !! j = Some (Some s)).
  { intros r j Hr Hj.
    pose proof (full_grid_nonempty_at w body r j Hfull Hr Hj) as Hn.
    unfold nonempty_at in Hn. destruct (r !! j) as [[s|]|]; [eauto|done..]. }
  assert (Hds : dataset_of_cleaned (header :: body)
                = Ok (Some (Frame (_make_unique_columns header) body))).
  { rewrite Eb at 1. cbn [dataset_of_cleaned]. rewrite <- Eb.
    unfold pd.DataFrame_of_rows. fold (width body).
    rewrite (width_uniform body w Hne Hlens), Hnames, Nat.eqb_refl.
    cbn [mbind result_bind].
    assert (((fun r => r ++ replicate (w - length r) None) <$> body) = body) as ->.
    { rewrite <- (list_fmap_id body) at 2. apply Forall_fmap_ext_1.
      eapply Forall_impl; [exact Hlens|]. intros r ->.
      by rewrite Nat.sub_diag, app_nil_r. }
    unfold pd.dropna_rows_all. cbn [columns data].
    rewrite (filter_all _ body).
    2:{ intros r Hr. destruct (Hsome r 0 Hr ltac:(lia)) as [s Hs].
      apply Exists_exists. exists (Some s). split; [|done].
      by eapply list_elem_of_lookup_2. }
    unfold pd.dropna_columns_all. cbn [columns data].
    rewrite (filter_all _ (seq 0 _)).
    2:{ intros j Hj. apply elem_of_seq in Hj. rewrite Hnames in Hj.
      unfold pd.column_values. cbn [data]. rewrite Eb.
      destruct (Hsome d j) as [s Hs]; [rewrite Eb; left|lia|].
      apply Exists_cons_hd. by rewrite Hs. }
    rewrite (select_columns_all (_make_unique_columns header) body).
    2:{ by rewrite Hnames. }
    unfold pd.empty. cbn [columns data].
    destruct (_make_unique_columns header) as [|n ns]; [cbn in Hnames; lia|].
    rewrite Eb. done. }
  by rewrite Hds.
Qed.

Lemma table_contribution_full_grid_witness :
  table_contribution [[Some "ID"; Some "Name"]; [Some "1"; Some "Ann"]; [Some "2"; Some "Bob"]]
  = Some (Frame ["ID"; "Name"] [[Some "1"; Some "Ann"]; [Some "2"; Some "Bob"]]).
Proof.
  apply (table_contribution_full_grid 2).
  - cbn. lia.
  - lia.
  - repeat constructor.
Defined.

(** X13. The merge loses no row and makes every row as wide as the merged
    schema: one table or more with duplicate-free schemas are always
    merged, the merged dataset has as many rows as the tables have
    together, and each of its rows has one cell for each merged column. *)
Theorem merge_tables_shape (frames : list DataFrame) :
  frames ≠ [] →
  Forall (fun df => NoDup (columns df)) frames →
  ∃ merged,
    merge_tables frames = Ok merged
    ∧ length (data merged) = sum_list ((fun df => length (data df)) <$> frames)
    ∧ Forall (fun r => length r = length (columns merged)) (data merged).
Proof.
  intros Hne Hnd. exists (pd.align frames).
  split; [by apply concat_duplicate_free|].
  split; [apply concat_rows_length|].
  cbn. apply Forall_forall. intros r Hr.
  apply list_elem_of_join in Hr as (rows & Hr & Hrows).
  apply list_elem_of_fmap in Hrows as (df & -> & _).
  apply list_elem_of_fmap in Hr as (r0 & -> & _).
  apply length_reindex_row.
Qed.

Lemma merge_tables_shape_witness :
  ∃ merged,
    merge_tables [Frame ["A"; "B"] [[Some "1"; Some "2"]];
                  Frame ["B"; "C"] [[Some "3"; Some "4"]; [None; Some "5"]]] = Ok merged
    ∧ length (data merged) = 3
    ∧ Forall (fun r => length r = length (columns merged)) (data merged).
Proof.
  apply (merge_tables_shape [Frame ["A"; "B"] [[Some "1"; Some "2"]];
                             Frame ["B"; "C"] [[Some "3"; Some "4"]; [None; Some "5"]]]).
  - discriminate.
  - apply (bool_decide_unpack _). by vm_compute.
Defined.

(** X14. The merge keeps every value under its label: when all tables
    have duplicate-free schemas, they are merged, and a row of one of
    them appears in the merged dataset with each of its values in the
    merged column of the same name, and with a missing value in every
    merged column its table does not have. *)
Theorem merge_tables_keeps_values (frames : list DataFrame) (df : DataFrame) (r : row) :
  Forall (fun df => NoDup (columns df)) frames →
  df ∈ frames → r ∈ data df →
  ∃ merged r',
    merge_tables frames = Ok merged
    ∧ r' ∈ data merged
    ∧ (∀ j c, columns df !! j = Some c →
         ∃ k, columns merged !! k = Some c ∧ r' !! k = Some (default None (r !! j)))
    ∧ (∀ k c, columns merged !! k = Some c → c ∉ columns df → r' !! k = Some None).
Proof.
  intros Hall Hdf Hr.
  assert (Hnd : NoDup (columns df)).
  { by apply (proj1 (Forall_forall _ _) Hall). }
  assert (Hne : frames ≠ []).
  { intros ->. by apply not_elem_of_nil in Hdf. }
  exists (pd.align frames), (pd.reindex_row (columns df) (pd.union_columns frames) r).
  split; [by apply concat_duplicate_free|]. split; [|split].
  - cbn. apply list_elem_of_join.
    exists (pd.reindex_row (columns df) (pd.union_columns frames) <$> data df).
    split; [by apply list_elem_of_fmap_2|].
    by apply (list_elem_of_fmap_2
                (fun df => pd.reindex_row (columns df) (pd.union_columns frames) <$> data df)).
  - intros j c Hj.
    assert (Hc : c ∈ pd.union_columns frames).
    { apply elem_of_union_columns. exists df. split; [done|].
      by eapply list_elem_of_lookup_2. }
    apply list_elem_of_lookup in Hc as [k Hk]. exists k. split; [done|].
    by apply reindex_row_lookup with c.
  - intros k c Hk Hc. by apply reindex_row_missing with c.
Qed.

Lemma merge_tables_keeps_values_witness :
  ∃ merged r',
    merge_tables [Frame ["A"; "B"] [[Some "1"; Some "2"]];
                  Frame ["B"; "C"] [[Some "3"; Some "4"]]] = Ok merged
    ∧ r' ∈ data merged
    ∧ (∀ j c, ["B"; "C"] !! j = Some c →
         ∃ k, columns merged !! k = Some c
              ∧ r' !! k = Some (default None ([Some "3"; Some "4"] !! j)))
    ∧ (∀ k c, columns merged !! k = Some c → c ∉ ["B"; "C"] → r' !! k = Some None).
Proof.
  apply (merge_tables_keeps_values
           [Frame ["A"; "B"] [[Some "1"; Some "2"]]; Frame ["B"; "C"] [[Some "3"; Some "4"]]]
           (Frame ["B"; "C"] [[Some "3"; Some "4"]])).
  - apply (bool_decide_unpack _). by vm_compute.
  - right. left.
  - left.
Defined.

(** X15. The fill-rate cut drops columns only: it keeps every row, and the
    columns that survive stand in the order they had. *)
Theorem prune_sparse_keeps_rows_and_order (merged_df : DataFrame) :
  length (data (prune_sparse merged_df)) = length (data merged_df)
  ∧ columns (prune_sparse merged_df) `sublist_of` columns merged_df.
Proof.
  unfold prune_sparse, pd.dropna_columns_thresh. split.
  - apply select_columns_rows.
  - apply select_columns_sublist.
Qed.

(** X16. A merged dataset without rows loses its whole schema in the
    fill-rate cut, since the cut asks for one non-null cell at least:
    whenever tables that are all bare headers are merged, no column is
    left after the cut and the dataset returned is the empty one. *)
Theorem prune_sparse_drops_schema_without_rows (frames : list DataFrame) (merged : DataFrame) :
  merge_tables frames = Ok merged →
  Forall (fun df => data df = []) frames →
  prune_sparse merged = Frame [] []
  ∧ merged_dataframe frames = Ok (Frame [] []).
Proof.
  intros Hmerged Hempty.
  assert (Hdata : data merged = []).
  { apply nil_length_inv. rewrite (concat_ok_rows _ _ Hmerged).
    clear Hmerged. induction Hempty as [|df frames Hdf _ IH]; [done|].
    cbn. by rewrite Hdf, IH. }
  assert (Hcut : prune_sparse merged = Frame [] []).
  { unfold prune_sparse, pd.dropna_columns_thresh, pd.select_columns.
    rewrite Hdata. cbn [length data fmap list_fmap].
    assert (filter (fun j => Nat.max 1 (0 / 5) ≤ pd.non_null_count merged j)
                   (seq 0 (length (columns merged))) = []) as ->; [|done].
    apply elem_of_nil_inv. intros j Hj. apply list_elem_of_filter in Hj as [Hj _].
    unfold pd.non_null_count, pd.column_values in Hj. rewrite Hdata in Hj.
    cbn in Hj. lia. }
  split; [done|].
  destruct frames as [|df frames]; [done|].
  unfold merged_dataframe. rewrite Hmerged. cbn [mbind result_bind].
  by rewrite Hcut.
Qed.

Lemma prune_sparse_drops_schema_without_rows_witness :
  prune_sparse (Frame ["A"; "B"; "C"] []) = Frame [] []
  ∧ merged_dataframe [Frame ["A"; "B"] []; Frame ["B"; "C"] []] = Ok (Frame [] []).
Proof.
  apply (prune_sparse_drops_schema_without_rows
           [Frame ["A"; "B"] []; Frame ["B"; "C"] []]).
  - reflexivity.
  - repeat constructor.
Defined.

(** ** The columns dropped at the end of [tables_to_dataframe] *)

Section final_cleanup.

Implicit Types (df : DataFrame) (frames : list DataFrame) (r : row).

Lemma omap_lookup_in_range {A} (l : list A) (js : list nat) (k : nat) :
  Forall (fun j => j < length l) js →
  omap (fun j => l !! j) js !! k = js !! k ≫= (fun j => l !! j).
Proof.
  revert k. induction js as [|j js IH]; intros k Hjs; [done|].
  apply Forall_cons in Hjs as [Hj Hjs].
  destruct (lookup_lt_is_Some_2 l j Hj) as [x Hx].
  cbn [omap list_omap]. rewrite Hx. destruct k as [|k]; cbn; [done|]. by apply IH.
Qed.

(** The columns of a selection, read through the positions selected. *)
Lemma select_filter_lookup (P : nat → Prop) `{∀ j, Decision (P j)} df (k : nat) (c : string) :
  columns (pd.select_columns (filter P (seq 0 (length (columns df)))) df) !! k = Some c →
  ∃ j, P j ∧ columns df !! j = Some c
    ∧ pd.column_values (pd.select_columns (filter P (seq 0 (length (columns df)))) df) k
      = pd.column_values df j.
Proof.
  set (js := filter P (seq 0 (length (columns df)))).
  intros Hk. cbn [pd.select_columns columns] in Hk.
  rewrite omap_lookup_in_range in Hk.
  2:{ apply Forall_forall. intros j Hj. apply list_elem_of_filter in Hj as [_ Hj].
    apply elem_of_seq in Hj. lia. }
  destruct (js !! k) as [j|] eqn:Ej; [|done]. cbn in Hk.
  exists j. split.
  { apply list_elem_of_lookup_2 in Ej. by apply list_elem_of_filter in Ej as [? _]. }
  split; [done|].
  unfold pd.column_values. cbn [pd.select_columns data].
  rewrite <- list_fmap_compose. apply list_fmap_ext. intros i r _. cbn.
  by rewrite list_lookup_fmap, Ej.
Qed.

Lemma drop_unnamed_sparse_rows df :
  length (data (drop_unnamed_sparse df)) = length (data df).
Proof. apply select_columns_rows. Qed.

Lemma drop_blank_columns_rows df :
  length (data (drop_blank_columns df)) = length (data df).
Proof. apply select_columns_rows. Qed.

End final_cleanup.

(** X17. Every column of the dataset returned by the merger has a cell
    that is not blank: for tables with duplicate-free schemas a dataset
    is returned, and columns without any text do not survive in it. *)
Theorem merged_dataframe_columns_filled (frames : list DataFrame) :
  Forall (fun df => NoDup (columns df)) frames →
  ∃ final,
    merged_dataframe frames = Ok final
    ∧ ∀ (k : nat) (c : string),
        columns final !! k = Some c → 0 < non_blank_count final k.
Proof.
  intros Hnd. destruct (merged_dataframe_duplicate_free frames Hnd) as [final Hfinal].
  exists final. split; [done|]. intros k c Hk.
  apply merged_dataframe_ok in Hfinal as [[_ ->]|(merged & _ & _ & _ & ->)]; [done|].
  set (pruned := prune_sparse merged) in *.
  unfold drop_unnamed_sparse in Hk |- *.
  apply select_filter_lookup in Hk as (j & _ & Hj & Hvals).
  unfold non_blank_count at 1. rewrite Hvals. fold (non_blank_count (drop_blank_columns pruned) j).
  unfold drop_blank_columns in Hj |- *.
  apply select_filter_lookup in Hj as (j' & Hpos & _ & Hvals').
  unfold non_blank_count at 1. by rewrite Hvals'.
Qed.

Lemma merged_dataframe_columns_filled_witness :
  ∃ final,
    merged_dataframe [Frame ["A"; "B"] [[Some "1"; Some " "]; [Some "2"; None]]] = Ok final
    ∧ ∀ (k : nat) (c : string),
        columns final !! k = Some c → 0 < non_blank_count final k.
Proof.
  apply (merged_dataframe_columns_filled
           [Frame ["A"; "B"] [[Some "1"; Some " "]; [Some "2"; None]]]).
  apply (bool_decide_unpack _). by vm_compute.
Defined.

(** X18. In every dataset the merger returns, a column whose trimmed name
    is empty or is [None] has survived only because 30% of its cells or
    more are not blank. *)
Theorem merged_dataframe_unnamed_columns
    (frames : list DataFrame) (final : DataFrame) (k : nat) (c : string) :
  merged_dataframe frames = Ok final →
  columns final !! k = Some c →
  unnamed c = true →
  3 * length (data final) ≤ 10 * non_blank_count final k.
Proof.
  intros Hfinal Hk Hc.
  apply merged_dataframe_ok in Hfinal as [[_ ->]|(merged & _ & _ & _ & ->)]; [done|].
  set (cut := drop_blank_columns (prune_sparse merged)) in *.
  rewrite drop_unnamed_sparse_rows.
  unfold drop_unnamed_sparse in Hk |- *.
  apply select_filter_lookup in Hk as (j & Hkeep & Hj & Hvals).
  unfold non_blank_count at 1. rewrite Hvals. fold (non_blank_count cut j).
  rewrite Hj in Hkeep. change (default "" (Some c)) with c in Hkeep.
  rewrite Hc in Hkeep.
  unfold sparse_30 in Hkeep.
  destruct (10 * non_blank_count cut j <? 3 * length (data cut)) eqn:E.
  - exfalso. apply Hkeep. done.
  - apply Nat.ltb_ge in E. done.
Qed.

Lemma merged_dataframe_unnamed_columns_witness :
  3 * length (data (Frame [""; "B"] [[Some "1"; Some "x"]; [None; Some "y"]]))
  ≤ 10 * non_blank_count (Frame [""; "B"] [[Some "1"; Some "x"]; [None; Some "y"]]) 0.
Proof.
  apply (merged_dataframe_unnamed_columns
           [Frame [""; "B"] [[Some "1"; Some "x"]; [None; Some "y"]]] _ 0 "").
  - reflexivity.
  - reflexivity.
  - reflexivity.
Defined.

(** X19. The end of [tables_to_dataframe] drops columns only: without a
    table it returns the empty dataset, for tables with duplicate-free
    schemas it returns a dataset, and every dataset it returns has every
    row of every table and columns that are merged columns, in the order
    of the merge. *)
Theorem merged_dataframe_rows_and_order (frames : list DataFrame) :
  (frames = [] → merged_dataframe frames = Ok (Frame [] []))
  ∧ (Forall (fun df => NoDup (columns df)) frames →
     ∃ final, merged_dataframe frames = Ok final)
  ∧ ∀ final,
      merged_dataframe frames = Ok final →
      length (data final) = sum_list ((fun df => length (data df)) <$> frames)
      ∧ (frames ≠ [] →
         ∃ merged, merge_tables frames = Ok merged
                   ∧ columns final `sublist_of` columns merged).
Proof.
  split; [by intros ->|]. split; [apply merged_dataframe_duplicate_free|].
  intros final Hfinal.
  apply merged_dataframe_ok in Hfinal as [[-> ->]|(merged & Hne & Hmerged & _ & ->)];
    [done|].
  split.
  - rewrite drop_unnamed_sparse_rows, drop_blank_columns_rows.
    unfold prune_sparse, pd.dropna_columns_thresh. rewrite select_columns_rows.
    by apply concat_ok_rows.
  - intros _. exists merged. split; [done|].
    etrans; [apply select_columns_sublist|].
    etrans; [apply select_columns_sublist|].
    apply select_columns_sublist.
Qed.

Lemma merged_dataframe_rows_and_order_witness :
  length (data (Frame ["A"; "B"; "C"] [[Some "1"; Some "2"; None]; [None; Some "3"; Some "4"]]))
  = 2.
Proof.
  apply (merged_dataframe_rows_and_order
           [Frame ["A"; "B"] [[Some "1"; Some "2"]]; Frame ["B"; "C"] [[Some "3"; Some "4"]]]).
  reflexivity.
Defined.

(** X23. Tables with duplicate-free schemas are merged by first
    appearance: for one such table or more the merge returns a dataset
    whose schema is the union of the schemas in first-seen order, without
    a repeated label; merging one more such table appends its new columns
    after the columns merged so far, in their order; and tables with the
    columns [A,B] and [B,C] merge into the schema [A,B,C], with missing
    values where a table has no such column. *)
Theorem merge_tables_first_seen :
  (∀ frames : list DataFrame,
     frames ≠ [] →
     Forall (fun df => NoDup (columns df)) frames →
     ∃ merged,
       merge_tables frames = Ok merged
       ∧ columns merged = first_seen (mjoin (columns <$> frames))
       ∧ NoDup (columns merged)
       ∧ ∀ c, c ∈ columns merged ↔ ∃ df, df ∈ frames ∧ c ∈ columns df)
  ∧ (∀ (frames : list DataFrame) (df : DataFrame),
       frames ≠ [] →
       Forall (fun df => NoDup (columns df)) (frames ++ [df]) →
       ∃ merged merged',
         merge_tables frames = Ok merged
         ∧ merge_tables (frames ++ [df]) = Ok merged'
         ∧ columns merged'
           = columns merged ++ filter (fun c => c ∉ columns merged) (columns df))
  ∧ (∀ a b b' c' : cell,
       merge_tables [Frame ["A"; "B"] [[a; b]]; Frame ["B"; "C"] [[b'; c']]]
       = Ok (Frame ["A"; "B"; "C"] [[a; b; None]; [None; b'; c']])).
Proof.
  split; [|split].
  - intros frames Hne Hnd. exists (pd.align frames).
    split; [by apply concat_duplicate_free|].
    split; [apply align_columns|]. rewrite align_columns.
    split; [apply NoDup_first_seen|].
    intros c. rewrite <- align_columns. apply elem_of_union_columns.
  - intros frames df Hne Hnd.
    exists (pd.align frames), (pd.align (frames ++ [df])).
    destruct (proj1 (Forall_app _ _ _) Hnd) as [Hfr Hdf].
    apply Forall_inv in Hdf.
    split; [by apply concat_duplicate_free|].
    split; [apply concat_duplicate_free; [by intros [_ [=]]%app_eq_nil|done]|].
    cbn. by rewrite union_columns_snoc, foldl_add_label, first_seen_NoDup.
  - intros a b b' c'. reflexivity.
Qed.

Lemma merge_tables_first_seen_witness :
  ∃ merged,
    merge_tables [Frame ["A"; "B"] [[Some "1"; Some "2"]]; Frame ["B"; "C"] []] = Ok merged
    ∧ columns merged = ["A"; "B"; "C"].
Proof.
  destruct (proj1 merge_tables_first_seen
              [Frame ["A"; "B"] [[Some "1"; Some "2"]]; Frame ["B"; "C"] []])
    as (merged & H & Hcols & _ & _).
  - discriminate.
  - apply (bool_decide_unpack _). by vm_compute.
  - exists merged. split; [exact H|exact Hcols].
Defined.

(** ** Text formatting, beyond the first line *)

Section text_lines.

Implicit Types (s t line : string) (lines : list string).

Lemma rstrip_cons (c : ascii) s :
  Py.rstrip (String c s)
  = match Py.rstrip s with
    | EmptyString => if Py.isspace c then EmptyString else String c EmptyString
    | r => String c r
    end.
Proof. done. Qed.

Lemma rstrip_idem s : Py.rstrip (Py.rstrip s) = Py.rstrip s.
Proof.
  induction s as [|c s IH]; [done|]. rewrite rstrip_cons.
  destruct (Py.rstrip s) as [|d r] eqn:E.
  - destruct (Py.isspace c) eqn:Ec; [done|]. cbn. by rewrite Ec.
  - rewrite rstrip_cons, IH. done.
Qed.

Lemma lstrip_clean s : starts_clean s → Py.lstrip s = s.
Proof. destruct s as [|c s]; [done|]. cbn. by intros ->. Qed.

Lemma rstrip_starts_clean s : starts_clean s → starts_clean (Py.rstrip s).
Proof.
  destruct s as [|c s]; [done|]. intros Hc.
  by destruct (rstrip_head c s Hc) as [r ->].
Qed.

(** [strip] does nothing to a string that is stripped already. *)
Lemma strip_idem s : Py.strip (Py.strip s) = Py.strip s.
Proof.
  unfold Py.strip.
  rewrite (lstrip_clean (Py.rstrip (Py.lstrip s))).
  - apply rstrip_idem.
  - apply rstrip_starts_clean, lstrip_starts_clean.
Qed.

Lemma lstrip_no_newline s : no_newline s = true → no_newline (Py.lstrip s) = true.
Proof.
  induction s as [|c s IH]; [done|]. cbn. intros H.
  apply andb_true_iff in H as [Hc Hs].
  destruct (Py.isspace c); [by apply IH|]. cbn. by rewrite Hc, Hs.
Qed.

Lemma rstrip_no_newline s : no_newline s = true → no_newline (Py.rstrip s) = true.
Proof.
  induction s as [|c s IH]; [done|]. rewrite rstrip_cons. cbn [no_newline]. intros H.
  apply andb_true_iff in H as [Hc Hs]. specialize (IH Hs).
  destruct (Py.rstrip s) as [|d r].
  - destruct (Py.isspace c); [done|]. cbn. by rewrite Hc.
  - change (no_newline (String c (String d r))) with
      (negb (is_newline c) && no_newline (String d r)).
    by rewrite Hc, IH.
Qed.

Lemma strip_no_newline s : no_newline s = true → no_newline (Py.strip s) = true.
Proof. intros H. by apply rstrip_no_newline, lstrip_no_newline. Qed.

Lemma split_lines_no_newline s : Forall (fun l => no_newline l = true) (split_lines s).
Proof.
  induction s as [|c s IH]; [by repeat constructor|].
  cbn [split_lines]. destruct (is_newline c) eqn:Ec.
  - by constructor.
  - destruct (split_lines s) as [|l ls]; [by repeat constructor; cbn; rewrite Ec|].
    apply Forall_cons in IH as [Hl Hls]. constructor; [|done].
    cbn. by rewrite Ec, Hl.
Qed.

Lemma split_lines_append line s :
  no_newline line = true →
  split_lines (line +:+ String newline s) = line :: split_lines s.
Proof.
  induction line as [|c line IH]; intros H.
  - change (split_lines (String newline s) = EmptyString :: split_lines s).
    cbn [split_lines]. unfold is_newline. by rewrite bool_decide_eq_true_2.
  - cbn [no_newline] in H. apply andb_true_iff in H as [Hc Hl].
    change (split_lines (String c (line +:+ String newline s))
            = String c line :: split_lines s).
    cbn [split_lines]. apply negb_true_iff in Hc. unfold is_newline in Hc |- *.
    rewrite Hc, (IH Hl). done.
Qed.

Lemma split_lines_single line : no_newline line = true → split_lines line = [line].
Proof.
  induction line as [|c line IH]; [done|]. cbn [no_newline split_lines]. intros H.
  apply andb_true_iff in H as [Hc Hl]. apply negb_true_iff in Hc.
  by rewrite Hc, (IH Hl).
Qed.

(** Splitting at the newlines undoes the joining of lines that hold none. *)
Lemma split_join_lines lines :
  lines ≠ [] → Forall (fun l => no_newline l = true) lines →
  split_lines (join_lines lines) = lines.
Proof.
  induction lines as [|l lines IH]; [done|]. intros _ Hall.
  apply Forall_cons in Hall as [Hl Hall].
  destruct lines as [|l' lines'].
  - cbn. by apply split_lines_single.
  - change (join_lines (l :: l' :: lines')) with (l +:+ String newline (join_lines (l' :: lines'))).
    rewrite split_lines_append by done. f_equal. by apply IH.
Qed.

Lemma no_blank_pair_snoc lines line :
  no_blank_pair lines →
  (line = EmptyString → ∃ previous, last lines = Some previous ∧ previous ≠ EmptyString) →
  no_blank_pair (lines ++ [line]).
Proof.
  induction lines as [|l1 [|l2 rest] IH]; intros Hp Hline.
  - done.
  - cbn. split; [|done]. intros [-> ->].
    destruct (Hline eq_refl) as (p & [= <-] & Hne). done.
  - destruct Hp as [Hp1 Hp2]. split; [done|]. apply IH; [done|].
    intros E. destruct (Hline E) as (p & Hl & Hne). exists p. split; [|done].
    exact Hl.
Qed.

Lemma reflow_step_reflowed lines line :
  no_newline line = true → reflowed lines → reflowed (reflow_step lines line).
Proof.
  intros Hnl [Hall Hpairs]. unfold reflow_step.
  destruct (Py.truthy (Py.strip line)) eqn:E.
  - split.
    + apply Forall_app. split; [done|]. constructor; [|done].
      split; [apply strip_idem|by apply strip_no_newline].
    + apply no_blank_pair_snoc; [done|]. intros E'. by rewrite E' in E.
  - destruct (last lines) as [previous|] eqn:El; [|done].
    destruct (Py.truthy previous) eqn:Ep; [|done]. split.
    + apply Forall_app. split; [done|]. by repeat constructor.
    + apply no_blank_pair_snoc; [done|]. intros _. exists previous.
      split; [done|]. by intros ->.
Qed.

Lemma reflow_reflowed lines acc :
  Forall (fun l => no_newline l = true) lines →
  reflowed acc → reflowed (foldl reflow_step acc lines).
Proof.
  revert acc. induction lines as [|l lines IH]; intros acc Hall Hacc; [done|].
  apply Forall_cons in Hall as [Hl Hall].
  cbn [foldl]. apply IH; [done|]. by apply reflow_step_reflowed.
Qed.

End text_lines.

(** X20. Every line of the text returned by [_format_text] is stripped
    (it has no white space at either end), and no two consecutive lines
    are empty: the text never holds three newlines in a row. *)
Theorem format_text_lines (text : string) (page_num total_pages : Z) :
  let out := _format_text text page_num total_pages in
  Forall (fun l => Py.strip l = l) (split_lines out)
  ∧ no_blank_pair (split_lines out).
Proof.
  cbn zeta. unfold _format_text.
  destruct (negb (Py.truthy text)); [by repeat constructor|].
  match goal with |- context [foldl reflow_step [] ?ls] =>
    pose proof (reflow_reflowed ls [] (split_lines_no_newline _)
                  (conj (Forall_nil_2 _) I)) as [Hall Hpairs];
    destruct (foldl reflow_step [] ls) as [|line lines] eqn:E
  end; [by repeat constructor|].
  rewrite split_join_lines; [|done|].
  - split; [|done]. eapply Forall_impl; [exact Hall|]. by intros l [? _].
  - eapply Forall_impl; [exact Hall|]. by intros l [_ ?].
Qed.

Section page_header.

Implicit Types (s t line : string) (lines : list string).

Lemma append_cons (c : ascii) s t : String c s +:+ t = String c (s +:+ t).
Proof. done. Qed.

Lemma append_assoc s t u : (s +:+ t) +:+ u = s +:+ (t +:+ u).
Proof.
  induction s as [|c s IH]; [done|]. by rewrite !append_cons, IH.
Qed.

Lemma no_space_append s t : no_space (s +:+ t) = no_space s && no_space t.
Proof.
  induction s as [|c s IH]; [done|].
  rewrite append_cons. cbn [no_space]. by rewrite IH, andb_assoc.
Qed.

Lemma no_newline_append s t : no_newline (s +:+ t) = no_newline s && no_newline t.
Proof.
  induction s as [|c s IH]; [done|].
  rewrite append_cons. cbn [no_newline]. by rewrite IH, andb_assoc.
Qed.

Lemma no_space_no_newline s : no_space s = true → no_newline s = true.
Proof.
  induction s as [|c s IH]; [done|]. cbn. intros H.
  apply andb_true_iff in H as [Hc Hs]. rewrite (IH Hs), andb_true_r.
  apply negb_true_iff, bool_decide_eq_false. intros ->.
  by rewrite isspace_newline in Hc.
Qed.

Lemma rstrip_no_space s : no_space s = true → Py.rstrip s = s.
Proof.
  induction s as [|c s IH]; [done|]. cbn [no_space]. intros H.
  apply andb_true_iff in H as [Hc Hs]. apply negb_true_iff in Hc.
  rewrite rstrip_cons, (IH Hs), Hc. by destruct s.
Qed.

(** What follows the last white space of a string is not stripped. *)
Lemma rstrip_append s t :
  no_space t = true → t ≠ EmptyString → Py.rstrip (s +:+ t) = s +:+ t.
Proof.
  intros Ht Hne. induction s as [|c s IH]; [by apply rstrip_no_space|].
  rewrite append_cons, rstrip_cons, IH.
  destruct (s +:+ t) eqn:E; [|done].
  destruct s; [|done]. by cbn in E.
Qed.

Lemma string_of_uint_no_space (d : Decimal.uint) :
  no_space (NilEmpty.string_of_uint d) = true.
Proof. induction d; cbn [NilEmpty.string_of_uint no_space]; by rewrite ?IHd. Qed.

(** [str] of an [int] is not empty and holds no white space. *)
Lemma str_of_int_no_space (z : Z) :
  no_space (Py.str_of_int z) = true ∧ Py.str_of_int z ≠ EmptyString.
Proof.
  unfold Py.str_of_int, NilZero.string_of_int, NilZero.string_of_uint.
  destruct (Z.to_int z) as [d|d]; destruct d; cbn [no_space];
    rewrite ?string_of_uint_no_space; done.
Qed.

Lemma reflow_step_keep lines line :
  Py.strip line = line → Py.truthy line = true →
  reflow_step lines line = lines ++ [line].
Proof. intros Hs Ht. unfold reflow_step. by rewrite Hs, Ht. Qed.

Lemma reflow_extends lines acc :
  ∃ more, foldl reflow_step acc lines = acc ++ more.
Proof.
  revert acc. induction lines as [|l lines IH]; intros acc.
  - exists []. by rewrite app_nil_r.
  - cbn [foldl]. destruct (IH (reflow_step acc l)) as [more ->].
    unfold reflow_step. destruct (Py.truthy (Py.strip l)).
    + exists (Py.strip l :: more). by rewrite <- app_assoc.
    + destruct (last acc) as [previous|]; [|by exists more].
      destruct (Py.truthy previous); [|by exists more].
      exists (EmptyString :: more). by rewrite <- app_assoc.
Qed.

End page_header.

(** X21. In a document of more than one page, the block of a page with
    text starts with the page delimiter: the rule of 60 [=], the line
    [Page N of M], and the rule again, each on a line of its own. *)
Theorem format_text_page_header (text : string) (page_num total_pages : Z) :
  Py.truthy text = true → (1 < total_pages)%Z →
  ∃ rest,
    _format_text text page_num total_pages
    = repeat_char "=" 60 +:+ String newline
        (("Page " +:+ Py.str_of_int page_num +:+ " of " +:+ Py.str_of_int total_pages)
         +:+ String newline (repeat_char "=" 60 +:+ String newline rest)).
Proof.
  intros Htext Hpages. unfold _format_text.
  rewrite Htext. cbn [negb]. rewrite (proj2 (Z.ltb_lt 1 total_pages) Hpages).
  set (body := squeeze_blanks false (squeeze_newlines 0 text)).
  set (rule := repeat_char "=" 60).
  set (page := "Page " +:+ Py.str_of_int page_num +:+ " of " +:+ Py.str_of_int total_pages).
  destruct (str_of_int_no_space page_num) as [Hn1 _].
  destruct (str_of_int_no_space total_pages) as [Hm1 Hm2].
  assert (Hrule : no_newline rule = true) by reflexivity.
  assert (Hpage : no_newline page = true).
  { unfold page. rewrite !no_newline_append.
    rewrite (no_space_no_newline (Py.str_of_int page_num)) by done.
    rewrite (no_space_no_newline (Py.str_of_int total_pages)) by done.
    reflexivity. }
  assert (Hsplit : split_lines (page_header page_num total_pages +:+ body)
                   = EmptyString :: rule :: page :: rule :: EmptyString :: split_lines body).
  { unfold page_header. fold rule page.
    repeat (rewrite append_cons || rewrite append_assoc).
    change (String newline (rule +:+ ?x)) with (EmptyString +:+ String newline (rule +:+ x)).
    rewrite (split_lines_append EmptyString) by done.
    rewrite (split_lines_append rule) by done.
    rewrite (split_lines_append page) by done.
    rewrite (split_lines_append rule) by done.
    change (EmptyString +:+ body) with body.
    change (String newline body) with (EmptyString +:+ String newline body).
    by rewrite (split_lines_append EmptyString). }
  rewrite Hsplit.
  assert (Hstrip_rule : Py.strip rule = rule) by reflexivity.
  assert (Hstrip_page : Py.strip page = page).
  { unfold Py.strip. rewrite (lstrip_clean page) by reflexivity.
    unfold page. rewrite <- !append_assoc. apply rstrip_append; done. }
  assert (Htruthy_page : Py.truthy page = true) by reflexivity.
  assert (Hfold : foldl reflow_step []
                    (EmptyString :: rule :: page :: rule :: EmptyString :: split_lines body)
                  = foldl reflow_step [rule; page; rule; EmptyString] (split_lines body)).
  { cbn [foldl]. change (reflow_step [] EmptyString) with (@nil string).
    rewrite (reflow_step_keep [] rule) by done.
    rewrite (reflow_step_keep _ page) by done.
    rewrite (reflow_step_keep _ rule) by done.
    reflexivity. }
  rewrite Hfold.
  destruct (reflow_extends (split_lines body) [rule; page; rule; EmptyString]) as [more ->].
  exists (join_lines (EmptyString :: more)). reflexivity.
Qed.

Lemma format_text_page_header_witness :
  ∃ rest,
    _format_text "Hello" 2 3
    = repeat_char "=" 60 +:+ String newline
        (("Page " +:+ Py.str_of_int 2 +:+ " of " +:+ Py.str_of_int 3)
         +:+ String newline (repeat_char "=" 60 +:+ String newline rest)).
Proof. apply format_text_page_header; reflexivity. Defined.

(** ** Formatting a text that is formatted already *)

Section format_again.

Implicit Types (s t line : string) (lines : list string).

Lemma append_nil_r s : s +:+ EmptyString = s.
Proof. induction s as [|c s IH]; [done|]. by rewrite append_cons, IH. Qed.

Lemma repeat_char_shift (c : ascii) (n : nat) s :
  repeat_char c (S n) +:+ s = repeat_char c n +:+ String c s.
Proof.
  induction n as [|n IH]; [done|].
  change (repeat_char c (S (S n))) with (String c (repeat_char c (S n))).
  change (repeat_char c (S n)) with (String c (repeat_char c n)) at 2.
  by rewrite !append_cons, IH.
Qed.

Lemma squeeze_newlines_fixed (run : nat) s :
  runs_ok run s = true → squeeze_newlines run s = repeat_char newline run +:+ s.
Proof.
  revert run. induction s as [|c s IH]; intros run H; cbn [runs_ok squeeze_newlines] in *.
  - apply Nat.leb_le in H. rewrite append_nil_r.
    destruct (3 <=? run) eqn:E; [apply Nat.leb_le in E; lia|done].
  - destruct (is_newline c) eqn:Ec.
    + rewrite (IH _ H). apply bool_decide_eq_true in Ec as ->.
      apply repeat_char_shift.
    + apply andb_true_iff in H as [Hrun H]. apply Nat.leb_le in Hrun.
      rewrite (IH _ H).
      destruct (3 <=? run) eqn:E; [apply Nat.leb_le in E; lia|done].
Qed.

Lemma runs_ok_line (run : nat) line t :
  no_newline line = true →
  runs_ok run (line +:+ t)
  = match line with
    | EmptyString => runs_ok run t
    | String _ _ => (run <=? 2) && runs_ok 0 t
    end.
Proof.
  revert run. induction line as [|c line IH]; intros run H; [done|].
  cbn [no_newline] in H. apply andb_true_iff in H as [Hc Hl].
  apply negb_true_iff in Hc. rewrite append_cons. cbn [runs_ok]. rewrite Hc.
  rewrite (IH 0 Hl). by destruct line.
Qed.

Lemma runs_ok_join lines (run : nat) :
  Forall (fun l => no_newline l = true) lines → no_blank_pair lines →
  run + (match lines with EmptyString :: _ => 1 | _ => 0 end) ≤ 2 →
  runs_ok run (join_lines lines) = true.
Proof.
  revert run. induction lines as [|l lines IH]; intros run Hall Hp Hrun.
  - cbn. apply Nat.leb_le. lia.
  - apply Forall_cons in Hall as [Hl Hall]. destruct lines as [|l2 lines'].
    + cbn [join_lines]. rewrite <- (append_nil_r l), runs_ok_line by done.
      destruct l; cbn; [|rewrite andb_true_r]; apply Nat.leb_le; lia.
    + change (join_lines (l :: l2 :: lines'))
        with (l +:+ String newline (join_lines (l2 :: lines'))).
      destruct Hp as [Hp1 Hp2]. rewrite runs_ok_line by done.
      change (runs_ok ?r (String newline ?t)) with (runs_ok (S r) t).
      destruct l as [|c l].
      * apply IH; [done..|]. destruct l2; [by destruct Hp1|lia].
      * rewrite (proj2 (Nat.leb_le run 2)) by lia. cbn [andb].
        apply IH; [done..|]. destruct l2; lia.
Qed.

Lemma squeeze_blanks_fixed (in_run : bool) s :
  blanks_ok in_run s = true → squeeze_blanks in_run s = s.
Proof.
  revert in_run. induction s as [|c s IH]; intros in_run H; [done|].
  cbn [blanks_ok squeeze_blanks] in *. destruct (is_blank c).
  - apply andb_true_iff in H as [H Hs]. apply andb_true_iff in H as [Hrun Hc].
    apply negb_true_iff in Hrun as ->. apply bool_decide_eq_true in Hc as ->.
    by rewrite (IH _ Hs).
  - by rewrite (IH _ H).
Qed.

Lemma squeeze_blanks_ok (in_run : bool) s :
  blanks_ok in_run (squeeze_blanks in_run s) = true.
Proof.
  revert in_run. induction s as [|c s IH]; intros in_run; [done|].
  cbn [squeeze_blanks]. destruct (is_blank c) eqn:Ec.
  - destruct in_run; [apply IH|].
    cbn [blanks_ok]. change (is_blank (ascii_of_nat 32)) with true. cbn.
    apply IH.
  - cbn [blanks_ok]. rewrite Ec. apply IH.
Qed.

Lemma blanks_ok_weaken (in_run : bool) s :
  blanks_ok in_run s = true → blanks_ok false s = true.
Proof.
  destruct s as [|c s]; [done|]. cbn. destruct (is_blank c); [|done].
  intros H. apply andb_true_iff in H as [H ->]. apply andb_true_iff in H as [_ ->]. done.
Qed.

Lemma blanks_ok_lstrip (in_run : bool) s :
  blanks_ok in_run s = true → blanks_ok false (Py.lstrip s) = true.
Proof.
  revert in_run. induction s as [|c s IH]; intros in_run H; [done|].
  cbn [Py.lstrip]. destruct (Py.isspace c); [|by eapply blanks_ok_weaken].
  cbn [blanks_ok] in H. destruct (is_blank c).
  - apply andb_true_iff in H as [_ H]. by eapply IH.
  - by eapply IH.
Qed.

Lemma blanks_ok_rstrip (in_run : bool) s :
  blanks_ok in_run s = true → blanks_ok in_run (Py.rstrip s) = true.
Proof.
  revert in_run. induction s as [|c s IH]; intros in_run H; [done|].
  rewrite rstrip_cons. cbn [blanks_ok] in H.
  assert (Hrest : blanks_ok (is_blank c) (Py.rstrip s) = true).
  { destruct (is_blank c); [|by apply IH].
    apply andb_true_iff in H as [_ H]. by apply IH. }
  destruct (Py.rstrip s) as [|d r].
  - destruct (Py.isspace c); [done|]. cbn [blanks_ok].
    destruct (is_blank c); [|done]. apply andb_true_iff in H as [-> _]. done.
  - change (blanks_ok in_run (String c (String d r)))
      with (if is_blank c
            then negb in_run && bool_decide (c = ascii_of_nat 32)
                 && blanks_ok true (String d r)
            else blanks_ok false (String d r)).
    destruct (is_blank c); [|done].
    apply andb_true_iff in H as [-> _]. done.
Qed.

Lemma blanks_ok_strip (in_run : bool) s :
  blanks_ok in_run s = true → blanks_ok false (Py.strip s) = true.
Proof. intros H. by eapply blanks_ok_rstrip, blanks_ok_lstrip. Qed.

Lemma blanks_ok_split (in_run : bool) s :
  blanks_ok in_run s = true →
  Forall (fun l => blanks_ok false l = true) (split_lines s).
Proof.
  intros H.
  assert (Hstrong : match split_lines s with
                    | [] => True
                    | l :: ls => blanks_ok in_run l = true
                                 ∧ Forall (fun l => blanks_ok false l = true) ls
                    end).
  { revert in_run H. induction s as [|c s IH]; intros in_run H; [done|].
    cbn [split_lines]. cbn [blanks_ok] in H. destruct (is_newline c) eqn:Ec.
    - apply bool_decide_eq_true in Ec as ->.
      change (is_blank newline) with false in H. cbn iota in H.
      specialize (IH false H). split; [done|].
      destruct (split_lines s) as [|l ls]; [done|].
      destruct IH as [Hl Hls]. by constructor.
    - destruct (is_blank c) eqn:Eb.
      + apply andb_true_iff in H as [Hc H]. specialize (IH true H).
        destruct (split_lines s) as [|l ls].
        * split; [|done]. cbn [blanks_ok]. by rewrite Eb, Hc.
        * destruct IH as [Hl Hls]. split; [|done]. cbn [blanks_ok].
          by rewrite Eb, Hc, Hl.
      + specialize (IH false H). destruct (split_lines s) as [|l ls].
        * split; [|done]. cbn [blanks_ok]. by rewrite Eb.
        * destruct IH as [Hl Hls]. split; [|done]. cbn [blanks_ok]. by rewrite Eb. }
  destruct (split_lines s) as [|l ls]; [done|]. destruct Hstrong as [Hl Hls].
  constructor; [by eapply blanks_ok_weaken|done].
Qed.

Lemma blanks_ok_line (in_run : bool) line t :
  blanks_ok in_run line = true → blanks_ok false t = true →
  blanks_ok in_run (line +:+ String newline t) = true.
Proof.
  revert in_run. induction line as [|c line IH]; intros in_run Hl Ht.
  - done.
  - rewrite append_cons. cbn [blanks_ok] in *. destruct (is_blank c).
    + apply andb_true_iff in Hl as [-> Hl]. cbn. by apply IH.
    + by apply IH.
Qed.

Lemma blanks_ok_join lines :
  Forall (fun l => blanks_ok false l = true) lines →
  blanks_ok false (join_lines lines) = true.
Proof.
  induction 1 as [|l lines Hl Hall IH]; [done|].
  destruct lines as [|l2 lines']; [done|].
  change (join_lines (l :: l2 :: lines'))
    with (l +:+ String newline (join_lines (l2 :: lines'))).
  by apply blanks_ok_line.
Qed.

Lemma reflow_blanks_ok lines acc :
  Forall (fun l => blanks_ok false l = true) lines →
  Forall (fun l => blanks_ok false l = true) acc →
  Forall (fun l => blanks_ok false l = true) (foldl reflow_step acc lines).
Proof.
  revert acc. induction lines as [|l lines IH]; intros acc Hall Hacc; [done|].
  apply Forall_cons in Hall as [Hl Hall]. cbn [foldl]. apply IH; [done|].
  unfold reflow_step. destruct (Py.truthy (Py.strip l)).
  - apply Forall_app. split; [done|]. constructor; [|done]. by eapply blanks_ok_strip.
  - destruct (last acc) as [previous|]; [|done].
    destruct (Py.truthy previous); [|done].
    apply Forall_app. split; [done|]. by repeat constructor.
Qed.

(** The re-flow leaves lines as they are when they are stripped, start
    with a line that is not empty and have no two empty neighbours. *)
Lemma reflow_fixed lines acc :
  Forall (fun l => Py.strip l = l) lines → no_blank_pair lines →
  (match lines with
   | EmptyString :: _ => ∃ previous, last acc = Some previous ∧ previous ≠ EmptyString
   | _ => True
   end) →
  foldl reflow_step acc lines = acc ++ lines.
Proof.
  revert acc. induction lines as [|l lines IH]; intros acc Hall Hp Hfirst.
  - by rewrite app_nil_r.
  - apply Forall_cons in Hall as [Hl Hall]. cbn [foldl].
    assert (Hstep : reflow_step acc l = acc ++ [l]).
    { unfold reflow_step. rewrite Hl. destruct l as [|c l]; [|done].
      destruct Hfirst as (p & -> & Hp'). by destruct p. }
    rewrite Hstep, IH, <- app_assoc; [done|done|..].
    + destruct lines as [|l2 lines']; [done|]. by destruct Hp.
    + destruct lines as [|l2 lines']; [done|]. destruct l2 as [|c2 l2]; [|done].
      exists l. rewrite last_snoc. split; [done|]. destruct Hp as [Hp _].
      intros ->. by apply Hp.
Qed.

End format_again.

(** X22. Formatting is idempotent on single pages: a text returned by
    [_format_text] for a document of one page is returned unchanged when
    it is formatted again as a single page. *)
Theorem format_text_idempotent (text : string) (page_num page_num' total_pages total_pages' : Z) :
  (total_pages ≤ 1)%Z → (total_pages' ≤ 1)%Z →
  _format_text (_format_text text page_num total_pages) page_num' total_pages'
  = _format_text text page_num total_pages.
Proof.
  intros Hn Hn'.
  assert (Hout : ∃ lines,
            _format_text text page_num total_pages = join_lines lines
            ∧ reflowed lines ∧ head_clean lines
            ∧ Forall (fun l => blanks_ok false l = true) lines).
  { unfold _format_text. destruct (negb (Py.truthy text)).
    { exists []. repeat split; constructor. }
    rewrite (proj2 (Z.ltb_ge 1 total_pages) Hn).
    set (body := squeeze_blanks false (squeeze_newlines 0 text)).
    exists (foldl reflow_step [] (split_lines body)). split; [done|].
    split; [|split].
    - apply reflow_reflowed; [apply split_lines_no_newline|]. split; constructor.
    - by apply reflow_head_clean.
    - apply reflow_blanks_ok; [|constructor].
      apply (blanks_ok_split false). apply squeeze_blanks_ok. }
  destruct Hout as (lines & -> & [Hall Hpairs] & Hhead & Hblanks).
  destruct lines as [|l lines]; [done|].
  destruct Hhead as [Htruthy Hclean]. destruct l as [|c l]; [done|].
  set (out := join_lines (String c l :: lines)).
  assert (Hnl : Forall (fun l => no_newline l = true) (String c l :: lines)).
  { eapply Forall_impl; [exact Hall|]. by intros ? [_ ?]. }
  assert (Hstripped : Forall (fun l => Py.strip l = l) (String c l :: lines)).
  { eapply Forall_impl; [exact Hall|]. by intros ? [? _]. }
  unfold _format_text at 1.
  assert (Py.truthy out = true) as ->.
  { unfold out. by destruct (join_lines_head c l lines) as [rest ->]. }
  cbn [negb]. rewrite (proj2 (Z.ltb_ge 1 total_pages') Hn').
  rewrite (squeeze_newlines_fixed 0 out) by (apply runs_ok_join; [done..|cbn; lia]).
  change (repeat_char newline 0 +:+ out) with out.
  rewrite (squeeze_blanks_fixed false out) by by apply blanks_ok_join.
  unfold out at 1. rewrite split_join_lines by done.
  by rewrite reflow_fixed.
Qed.

Lemma format_text_idempotent_witness :
  _format_text (_format_text (" a  b " +:+ String newline (String newline (String newline " c")))
                             1 1) 1 1
  = _format_text (" a  b " +:+ String newline (String newline (String newline " c"))) 1 1.
Proof. apply format_text_idempotent; lia. Defined.
